(** * llm-sky: station registry parsing and proximity search

    A shallow embedding of the station-proximity code of the [llm_sky]
    package: [dms_to_decimal] and the registry parser [stations] of
    [llm_sky/__main__.py], and the geodesy functions ([haversine],
    [bearing], [bearing_to_compass]), the report reader [metar] and the
    aggregator [metar_nearby] of [llm_sky/__init__.py].

    Conventions of the embedding.
    - A Python [str] is a list of characters ([list ascii], code points
      below 256).
    - A Python [int] is a [Z].
    - A Python [float] that is produced by rational operations only
      (the coordinate conversion, rounding, report ages) is an exact
      rational [Q]; a float that goes through [math.sin], [math.cos],
      [math.sqrt] or [math.atan2] is a real number [R].  Infinities
      and NaN are outside both views, and so is rounding, except in
      module [Binary64], which runs [haversine] on the floats of the
      machine.
    - A raised exception is the [Raise] branch of [result].
    - The outside world (HTTP, the clock) is an explicit state threaded
      through the functions that touch it. *)

From Stdlib Require Import List Ascii String ZArith QArith Qround Qabs Bool Lia.
From Stdlib Require Import Reals Lra Permutation Sorted.
From Stdlib Require DecimalString Floats Lqa.
Import ListNotations.

Set Implicit Arguments.

(** ** Exceptions and results *)

Inductive exn : Type :=
| ValueError
| IndexError
| TypeError
| HTTPError.

Inductive result (A : Type) : Type :=
| Ok (a : A)
| Raise (e : exn).

Arguments Ok {A} a.
Arguments Raise {A} e.

Definition bind {A B : Type} (r : result A) (k : A -> result B) : result B :=
  match r with
  | Ok a => k a
  | Raise e => Raise e
  end.

Declare Scope py_scope.
Delimit Scope py_scope with py.
Notation "x <- r ;; k" := (bind r (fun x => k))
  (at level 61, r at next level, right associativity) : py_scope.

Definition is_ok {A : Type} (r : result A) : bool :=
  match r with Ok _ => true | Raise _ => false end.

(** [list(map(f, xs))] for an [f] that may raise: the first exception,
    left to right, wins. *)
Fixpoint map_result {A B : Type} (f : A -> result B) (xs : list A) : result (list B) :=
  match xs with
  | [] => Ok []
  | x :: rest =>
      match f x with
      | Raise e => Raise e
      | Ok y => match map_result f rest with
                | Raise e => Raise e
                | Ok ys => Ok (y :: ys)
                end
      end
  end.

(** ** Strings *)

Definition str := list ascii.

Definition lit (s : string) : str := list_ascii_of_string s.

Definition str_eqb (a b : str) : bool :=
  if list_eq_dec ascii_dec a b then true else false.

Definition code_point (c : ascii) : nat := nat_of_ascii c.

(** [c.isspace()] for a code point below 256: TAB..CR, FS..US, space,
    NEL and NBSP. *)
Definition is_space (c : ascii) : bool :=
  let n := code_point c in
  ((9 <=? n) && (n <=? 13) || (28 <=? n) && (n <=? 32) || (n =? 133) || (n =? 160))%nat.

Definition is_digit (c : ascii) : bool :=
  let n := code_point c in ((48 <=? n) && (n <=? 57))%nat.

Definition digit_value (c : ascii) : Z := Z.of_nat (code_point c) - 48.

Fixpoint lstrip (s : str) : str :=
  match s with
  | c :: rest => if is_space c then lstrip rest else s
  | [] => []
  end.

(** [s.strip()] *)
Definition strip (s : str) : str := rev (lstrip (rev (lstrip s))).

(** [s.split(sep)] for a one-character separator; never the empty list. *)
Fixpoint split (sep : ascii) (s : str) : list str :=
  match s with
  | [] => [[]]
  | c :: rest =>
      if Ascii.eqb c sep then [] :: split sep rest
      else match split sep rest with
           | h :: t => (c :: h) :: t
           | [] => [[c]]
           end
  end.

(** [sep.join(parts)] *)
Fixpoint join (sep : str) (parts : list str) : str :=
  match parts with
  | [] => []
  | [p] => p
  | p :: rest => p ++ sep ++ join sep rest
  end.

(** [c.upper()]; station codes are ASCII, and only the ASCII letters
    are mapped here. *)
Definition upper_char (c : ascii) : ascii :=
  let n := code_point c in
  if ((97 <=? n) && (n <=? 122))%nat then ascii_of_nat (n - 32) else c.

Definition upper (s : str) : str := map upper_char s.

(** ** [int(s)] on a string

    Surrounding white space is dropped, one sign is accepted, and the
    digits may be grouped by single underscores that neither start nor
    end the literal. *)

Fixpoint scan_digits (prev_underscore : bool) (acc : Z) (s : str) : option Z :=
  match s with
  | [] => if prev_underscore then None else Some acc
  | c :: rest =>
      if is_digit c then scan_digits false (10 * acc + digit_value c) rest
      else if Ascii.eqb c "_"%char then
             if prev_underscore then None else scan_digits true acc rest
           else None
  end.

Definition parse_digits (s : str) : option Z :=
  match s with
  | c :: rest => if is_digit c then scan_digits false (digit_value c) rest else None
  | [] => None
  end.

Definition py_int (s : str) : result Z :=
  let t := strip s in
  let '(negative, body) :=
    match t with
    | c :: rest =>
        if Ascii.eqb c "-"%char then (true, rest)
        else if Ascii.eqb c "+"%char then (false, rest)
        else (false, t)
    | [] => (false, t)
    end in
  match parse_digits body with
  | Some n => Ok (if negative then - n else n)%Z
  | None => Raise ValueError
  end.

(** ** Coordinate conversion: [dms_to_decimal] of [__main__.py] *)

(** [while len(numbers) < 3: numbers.append(0)] *)
Definition pad3 (numbers : list Z) : list Z :=
  numbers ++ repeat 0%Z (3 - List.length numbers).

(** [direction in 'SW'] for a one-character [direction]. *)
Definition in_SW (direction : ascii) : bool :=
  Ascii.eqb direction "S"%char || Ascii.eqb direction "W"%char.

Definition decimal_of (degrees minutes seconds : Z) : Q :=
  (inject_Z degrees + inject_Z minutes / 60 + inject_Z seconds / 3600)%Q.

Definition dms_to_decimal (dms : str) : result Q :=
  match rev dms with
  | [] => Raise IndexError                       (* dms[-1] *)
  | direction :: _ =>
      (numbers <- map_result py_int (split "-"%char (removelast dms)) ;;
       match pad3 numbers with
       | [degrees; minutes; seconds] =>
           let decimal := decimal_of degrees minutes seconds in
           Ok (if in_SW direction then (- decimal)%Q else decimal)
       | _ => Raise ValueError                   (* too many values to unpack *)
       end)%py
  end.

(** ** Python dictionaries

    A [dict] keeps its keys in insertion order; assigning to a key that
    is present replaces the value where the key already stands. *)

Definition dict (V : Type) := list (str * V).

Fixpoint dict_set {V : Type} (d : dict V) (k : str) (v : V) : dict V :=
  match d with
  | [] => [(k, v)]
  | (k', v') :: rest =>
      if str_eqb k' k then (k', v) :: rest else (k', v') :: dict_set rest k v
  end.

Fixpoint dict_get {V : Type} (d : dict V) (k : str) : option V :=
  match d with
  | [] => None
  | (k', v') :: rest => if str_eqb k' k then Some v' else dict_get rest k
  end.

(** ** Rounding *)

(** [round(x)]: to the nearest integer, a tie goes to the even one. *)
Definition round_half_even (x : Q) : Z :=
  let f := Qfloor x in
  match (x - inject_Z f ?= 1 # 2)%Q with
  | Lt => f
  | Gt => (f + 1)%Z
  | Eq => if Z.even f then f else (f + 1)%Z
  end.

(** [round(x, ndigits)] *)
Definition round_ndigits (x : Q) (ndigits : nat) : Q :=
  let scale := inject_Z (10 ^ Z.of_nat ndigits) in
  (inject_Z (round_half_even (x * scale)) / scale)%Q.

(** ** The registry parser: [stations] of [__main__.py]

    The rows are the ones [csv.reader] yields for the lines of the feed
    with [delimiter=';']; [csv.DictReader] pairs each row with
    [FIELDNAMES], gives the keys beyond the end of a short row the value
    [None] and passes over empty rows. *)

Inductive field : Type :=
| f_code | f_name | f_country | f_latitude | f_longitude | f_altitude.

Definition field_eqb (a b : field) : bool :=
  match a, b with
  | f_code, f_code | f_name, f_name | f_country, f_country
  | f_latitude, f_latitude | f_longitude, f_longitude
  | f_altitude, f_altitude => true
  | _, _ => false
  end.

Definition FIELDNAMES : list (option field) :=
  [Some f_code; None; None; Some f_name; None; Some f_country; None;
   Some f_latitude; Some f_longitude; None; None; Some f_altitude].

(** [d[k]] for the dictionary [DictReader] builds from [row]. *)
Fixpoint reader_get (names : list (option field)) (row : list str) (k : field)
  : option str :=
  match names, row with
  | Some k' :: names', v :: row' =>
      if field_eqb k' k then Some v else reader_get names' row' k
  | None :: names', _ :: row' => reader_get names' row' k
  | _, _ => None
  end.

(** Truth value of a field: [None] and the empty string are false. *)
Definition truthy (v : option str) : bool :=
  match v with
  | Some (_ :: _) => true
  | _ => false
  end.

Record station : Type := mk_station {
  name : str;
  coordinate : Q * Q;
  altitude : option Z;
  country : option str
}.

(** The keyword argument a string field contributes: none when the raw
    value is false, the stripped value otherwise ([proc]). *)
Definition kw_str (v : option str) : option str :=
  match v with
  | Some (c :: rest) => Some (strip (c :: rest))
  | _ => None
  end.

(** The same for ['altitude'], which [proc] passes to [int]. *)
Definition kw_altitude (v : option str) : result (option Z) :=
  match v with
  | Some (c :: rest) =>
      match py_int (strip (c :: rest)) with
      | Ok n => Ok (Some n)
      | Raise e => Raise e
      end
  | _ => Ok None
  end.

(** The constructor call on the keyword arguments: [name] and
    [coordinate] have no default. *)
Definition make_station (kw_name : option str) (coord : Q * Q)
    (kw_alt : option Z) (kw_country : option str) : result station :=
  match kw_name with
  | Some n => Ok (mk_station n coord kw_alt kw_country)
  | None => Raise TypeError
  end.

(** What one row of the feed builds, when it passes the test on its
    latitude and longitude. *)
Definition build_station (row : list str) : result station :=
  let d := reader_get FIELDNAMES row in
  match d f_latitude, d f_longitude with
  | Some lat_s, Some lon_s =>
      (lat <- dms_to_decimal lat_s ;;
       lon <- dms_to_decimal lon_s ;;
       let coord := (round_ndigits lat 5, round_ndigits lon 5) in
       alt <- kw_altitude (d f_altitude) ;;
       make_station (kw_str (d f_name)) coord alt (kw_str (d f_country)))%py
  | _, _ => Raise TypeError      (* not reached: the caller tests both fields *)
  end.

Definition has_coordinates (row : list str) : bool :=
  let d := reader_get FIELDNAMES row in
  truthy (d f_latitude) && truthy (d f_longitude).

(** The body of the [for d in csv.DictReader(...)] loop. *)
Definition stations_row (res : dict station) (row : list str)
  : result (dict station) :=
  match row with
  | [] => Ok res
  | code :: _ =>
      if has_coordinates row then
        match build_station row with
        | Ok st => Ok (dict_set res code st)     (* result[d['code']] = ... *)
        | Raise e => Raise e
        end
      else Ok res
  end.

Fixpoint stations_loop (res : dict station) (rows : list (list str))
  : result (dict station) :=
  match rows with
  | [] => Ok res
  | row :: rest =>
      match stations_row res row with
      | Ok res' => stations_loop res' rest
      | Raise e => Raise e
      end
  end.

Definition stations (rows : list (list str)) : result (dict station) :=
  stations_loop [] rows.

(** A line of the feed without quote characters, as [csv.reader] splits it. *)
Definition csv_row (line : string) : list str :=
  match lit line with
  | [] => []
  | l => split ";"%char l
  end.

(** ** Geodesy: [haversine], [bearing] and [bearing_to_compass]

    The three functions are the same text in [__init__.py] and in
    [__main__.py]. *)

(** [math.radians] and [math.degrees] *)
Definition radians (x : R) : R := (x * PI / 180)%R.
Definition degrees (x : R) : R := (x * 180 / PI)%R.

(** [math.sqrt]: a negative argument is a domain error. *)
Definition math_sqrt (x : R) : result R :=
  if Rle_dec 0 x then Ok (sqrt x) else Raise ValueError.

(** [math.atan2(y, x)], the angle of the point [(x, y)] in [(-PI, PI]]. *)
Definition atan2 (y x : R) : R :=
  if Rlt_dec 0 x then atan (y / x)
  else if Rlt_dec x 0 then
         (if Rle_dec 0 y then atan (y / x) + PI else atan (y / x) - PI)%R
       else if Rlt_dec 0 y then (PI / 2)%R
            else if Rlt_dec y 0 then (- PI / 2)%R
                 else 0%R.

(** The intermediate value [a] of [haversine]. *)
Definition haversine_a (lat1 lon1 lat2 lon2 : R) : R :=
  let dlat := radians (lat2 - lat1) in
  let dlon := radians (lon2 - lon1) in
  (sin (dlat / 2) ^ 2
   + cos (radians lat1) * cos (radians lat2) * sin (dlon / 2) ^ 2)%R.

Definition earth_radius : R := 6371%R.

Definition haversine (lat1 lon1 lat2 lon2 : R) : result R :=
  let a := haversine_a lat1 lon1 lat2 lon2 in
  (sqrt_a <- math_sqrt a ;;
   sqrt_1a <- math_sqrt (1 - a) ;;
   let c := (2 * atan2 sqrt_a sqrt_1a)%R in
   Ok (earth_radius * c)%R)%py.

(** [x % m] on floats, for a positive [m]. *)
Definition float_mod (x m : R) : R := (x - m * IZR (Zfloor (x / m)))%R.

Definition bearing (lat1 lon1 lat2 lon2 : R) : R :=
  let lat1 := radians lat1 in
  let lon1 := radians lon1 in
  let lat2 := radians lat2 in
  let lon2 := radians lon2 in
  let d_lon := (lon2 - lon1)%R in
  let x := (sin d_lon * cos lat2)%R in
  let y := (cos lat1 * sin lat2 - sin lat1 * cos lat2 * cos d_lon)%R in
  let initial_bearing := degrees (atan2 x y) in
  float_mod (initial_bearing + 360) 360.

(** [int(x)] on a float: the fraction is dropped, towards zero. *)
Definition int_of_float (x : R) : Z :=
  if Rle_dec 0 x then Zfloor x else (- Zfloor (- x))%Z.

(** [l[i]] *)
Definition list_index {A : Type} (l : list A) (i : Z) : result A :=
  let n := Z.of_nat (List.length l) in
  let j := (if i <? 0 then n + i else i)%Z in
  if (j <? 0)%Z then Raise IndexError
  else match nth_error l (Z.to_nat j) with
       | Some x => Ok x
       | None => Raise IndexError
       end.

Definition compass_sectors : list str :=
  map lit ["N"; "NNE"; "NE"; "ENE"; "E"; "ESE"; "SE"; "SSE";
           "S"; "SSW"; "SW"; "WSW"; "W"; "WNW"; "NW"; "NNW"]%string.

Definition sector_size : R := (360 / INR (List.length compass_sectors))%R.

Definition sector_index (bearing : R) : Z :=
  (int_of_float ((bearing + sector_size / 2) / sector_size)
   mod Z.of_nat (List.length compass_sectors))%Z.

Definition bearing_to_compass (bearing : R) : result str :=
  list_index compass_sectors (sector_index bearing).

(** ** [list.sort(key=...)]

    The sort of Python lists is stable; a stable sort has one possible
    outcome, the one of this insertion sort. *)

Section Sort.
Variables (A K : Type) (key : A -> K) (leb : K -> K -> bool).

Fixpoint insert_by (x : A) (l : list A) : list A :=
  match l with
  | [] => [x]
  | y :: rest =>
      if leb (key x) (key y) then x :: y :: rest else y :: insert_by x rest
  end.

Fixpoint sort_by (l : list A) : list A :=
  match l with
  | [] => []
  | x :: rest => insert_by x (sort_by rest)
  end.
End Sort.

Definition Rleb (x y : R) : bool := if Rle_dec x y then true else false.

(** [round(x)] on a float that went through the geodesy. *)
Definition round_float (x : R) : Z :=
  let f := Zfloor x in
  if Rlt_dec (x - IZR f) (1 / 2) then f
  else if Rlt_dec (1 / 2) (x - IZR f) then (f + 1)%Z
       else if Z.even f then f else (f + 1)%Z.

(** [str(n)] for an integer. *)
Definition str_of_int (n : Z) : str :=
  lit (DecimalString.NilZero.string_of_int (Z.to_int n)).

(** ** The report reader and the aggregator of [__init__.py] *)

Definition URL (code : str) : str :=
  lit "https://tgftp.nws.noaa.gov/data/observations/metar/stations/"
  ++ code ++ lit ".TXT".

(** [timedelta.total_seconds()], the difference being in microseconds. *)
Definition total_seconds (delta : Z) : Q := delta # 1000000.

Section Aggregator.

(** The state of the outside world. *)
Variable World : Type.

(** [client.get(url)], [response.raise_for_status()] and
    [response.text]: the text of the page, or the exception of the
    HTTP client. *)
Variable http_get_text : str -> World -> result str * World.

(** [datetime.strptime(s, "%Y/%m/%d %H:%M")] in UTC, as microseconds
    since the epoch. *)
Variable strptime : str -> result Z.

(** [datetime.now(timezone.utc)], in the same unit. *)
Variable datetime_now : World -> Z * World.

(** The table of [llm_sky.metar_data], as [STATIONS.items()] lists it. *)
Variable STATIONS : list (str * station).

Definition metar (code : str) (w : World) : result (Z * str) * World :=
  let '(response, w1) := http_get_text (URL (upper code)) w in
  match response with
  | Raise e => (Raise e, w1)
  | Ok text =>
      match firstn 2 (split "010"%char text) with
      | [time_str; report] =>
          match strptime time_str with
          | Raise e => (Raise e, w1)
          | Ok time =>
              (Ok (time, join (lit " ") (skipn 2 (split " "%char report))), w1)
          end
      | _ => (Raise ValueError, w1)       (* not enough values to unpack *)
      end
  end.

Definition candidate : Type := (str * station * R)%type.

Definition distance_of (c : candidate) : R := snd c.

(** The first loop: the stations within [max_distance]. *)
Fixpoint distances_loop (latitude longitude max_distance : Q)
    (items : list (str * station)) : result (list candidate) :=
  match items with
  | [] => Ok []
  | (code, st) :: rest =>
      (distance <- haversine (Q2R latitude) (Q2R longitude)
                     (Q2R (fst (coordinate st))) (Q2R (snd (coordinate st))) ;;
       distances <- distances_loop latitude longitude max_distance rest ;;
       Ok (if Rleb distance (Q2R max_distance)
           then (code, st, distance) :: distances
           else distances))%py
  end.

Definition label (st : station) (distance : R) (compass : str) (delta : Z) : str :=
  name st ++ lit ": " ++ str_of_int (round_float distance) ++ lit "km "
  ++ compass ++ lit " "
  ++ str_of_int (round_half_even (total_seconds (Z.abs delta) / 60))
  ++ lit "m ago".

(** The freshness test of the aggregator. *)
Definition fresh (delta max_seconds_ago : Z) : bool :=
  Qle_bool (inject_Z (- max_seconds_ago)) (total_seconds delta).

(** The body of the [try] of the second loop: the entry it writes, if
    any, or the exception that leaves it. *)
Definition try_body (latitude longitude : Q) (max_seconds_ago : Z)
    (c : candidate) (w : World) : result (option (str * str)) * World :=
  let '(code, st, distance) := c in
  match bearing_to_compass
          (bearing (Q2R latitude) (Q2R longitude)
             (Q2R (fst (coordinate st))) (Q2R (snd (coordinate st)))) with
  | Raise e => (Raise e, w)
  | Ok compass =>
      let '(fetched, w1) := metar code w in
      match fetched with
      | Raise e => (Raise e, w1)
      | Ok (time, report) =>
          let '(now, w2) := datetime_now w1 in
          let delta := (time - now)%Z in
          if fresh delta max_seconds_ago
          then (Ok (Some (label st distance compass delta, report)), w2)
          else (Ok None, w2)
      end
  end.

(** The second loop; [except: pass] drops whatever the body raised. *)
Fixpoint report_loop (latitude longitude : Q) (max_seconds_ago : Z)
    (cands : list candidate) (res : dict str) (w : World) : dict str * World :=
  match cands with
  | [] => (res, w)
  | c :: rest =>
      let '(outcome, w') := try_body latitude longitude max_seconds_ago c w in
      match outcome with
      | Ok (Some (k, report)) =>
          report_loop latitude longitude max_seconds_ago rest (dict_set res k report) w'
      | Ok None => report_loop latitude longitude max_seconds_ago rest res w'
      | Raise _ => report_loop latitude longitude max_seconds_ago rest res w'
      end
  end.

(** The list the second loop runs over. *)
Definition candidates (latitude longitude max_distance : Q)
  : result (list candidate) :=
  match distances_loop latitude longitude max_distance STATIONS with
  | Ok distances => Ok (sort_by distance_of Rleb distances)
  | Raise e => Raise e
  end.

Definition metar_nearby (latitude longitude max_distance : Q)
    (max_seconds_ago : Z) (w : World) : result (dict str) * World :=
  match candidates latitude longitude max_distance with
  | Raise e => (Raise e, w)
  | Ok distances =>
      let '(res, w') :=
        report_loop latitude longitude max_seconds_ago distances [] w in
      (Ok res, w')
  end.

End Aggregator.

(** ** Vocabulary of the statements *)

(** A numeric segment of a DMS token: a non-empty run of decimal digits. *)
Definition digit_string (s : str) : Prop :=
  s <> [] /\ Forall (fun c => is_digit c = true) s.

Definition decimal_value (s : str) : Z :=
  fold_left (fun acc c => (10 * acc + digit_value c)%Z) s 0%Z.

Definition hemisphere (c : ascii) : Prop :=
  c = "N"%char \/ c = "S"%char \/ c = "E"%char \/ c = "W"%char.

(** The token [<degrees>[-<minutes>[-<seconds>]]<H>]. *)
Definition dms_token (segments : list str) (h : ascii) : str :=
  join (lit "-") segments ++ [h].

(** [degrees + minutes/60 + seconds/3600], a missing segment counting 0. *)
Definition magnitude (segments : list str) : Q :=
  (inject_Z (decimal_value (nth 0 segments []))
   + inject_Z (decimal_value (nth 1 segments [])) / 60
   + inject_Z (decimal_value (nth 2 segments [])) / 3600)%Q.

Definition code_of {D : Type} (c : str * station * D) : str := fst (fst c).
Definition station_of {D : Type} (c : str * station * D) : station := snd (fst c).

(** The distance test of the first loop, on one item of the table. *)
Definition in_reach (latitude longitude max_distance : Q) (item : str * station) : bool :=
  match haversine (Q2R latitude) (Q2R longitude)
          (Q2R (fst (coordinate (snd item)))) (Q2R (snd (coordinate (snd item)))) with
  | Ok distance => Rleb distance (Q2R max_distance)
  | Raise _ => false
  end.

(** Two keys that compare equal. *)
Definition same_key {K : Type} (leb : K -> K -> bool) (k k' : K) : bool :=
  leb k' k && leb k k'.

(** [l1] is [l2] with some elements left out, the order kept. *)
Inductive subseq {A : Type} : list A -> list A -> Prop :=
| subseq_nil : subseq [] []
| subseq_skip (x : A) (l1 l2 : list A) : subseq l1 l2 -> subseq l1 (x :: l2)
| subseq_take (x : A) (l1 l2 : list A) : subseq l1 l2 -> subseq (x :: l1) (x :: l2).

(** The dictionary after a sequence of assignments. *)
Definition write_all (res : dict str) (entries : list (str * str)) : dict str :=
  fold_left (fun d kv => dict_set d (fst kv) (snd kv)) entries res.

(** ** A sample world

    Three report pages, dated 03:00, 00:00 and 01:30 of the first day of
    1970, a server that knows no other station, and a clock that a
    reading advances by a millisecond.  [sample_strptime] is
    [datetime.strptime] on the three time stamps of the pages. *)

Definition sample_http (url : str) (w : Z) : result str * Z :=
  if str_eqb url (URL (lit "KAAA")) then
    (Ok (lit "1970/01/01 03:00" ++ ["010"%char] ++ lit "KAAA 010300Z 18010KT CAVOK"), w)
  else if str_eqb url (URL (lit "KBBB")) then
    (Ok (lit "1970/01/01 00:00" ++ ["010"%char] ++ lit "KBBB 010000Z 00000KT 9999"), w)
  else if str_eqb url (URL (lit "KCCC")) then
    (Ok (lit "1970/01/01 01:30" ++ ["010"%char] ++ lit "KCCC 010130Z 27005KT 9999"), w)
  else (Raise HTTPError, w).

Definition sample_strptime (s : str) : result Z :=
  if str_eqb s (lit "1970/01/01 03:00") then Ok (10800 * 1000000)%Z
  else if str_eqb s (lit "1970/01/01 00:00") then Ok 0%Z
  else if str_eqb s (lit "1970/01/01 01:30") then Ok (5400 * 1000000)%Z
  else Raise ValueError.

Definition sample_now (w : Z) : Z * Z := (w, (w + 1000)%Z).

Definition sample_station (n : string) : station :=
  mk_station (lit n) (0, 0)%Q None None.

(** ** [haversine] in binary64

    The same function with its arithmetic in IEEE 754 binary64, as the
    interpreter runs it: sums, products, quotients and the comparison
    of [math.sqrt] are the primitive operations; [math.sin],
    [math.cos], [math.atan2] and the power [x ** 2] are calls to the C
    library, taken as parameters. *)

Module Binary64.
Import Floats.
Local Open Scope float_scope.

Section Libm.
Variables (libm_sin libm_cos : float -> float).
Variables (libm_pow libm_atan2 : float -> float -> float).

(** [math.radians(x)] is [x * (pi / 180)]. *)
Definition deg_to_rad : float := 0x1.921fb54442d18p+1 / 180.
Definition radians (x : float) : float := x * deg_to_rad.

Definition math_sqrt (x : float) : result float :=
  if x <? 0 then Raise ValueError else Ok (PrimFloat.sqrt x).

Definition haversine_a (lat1 lon1 lat2 lon2 : float) : float :=
  let dlat := radians (lat2 - lat1) in
  let dlon := radians (lon2 - lon1) in
  libm_pow (libm_sin (dlat / 2)) 2
  + libm_cos (radians lat1) * libm_cos (radians lat2)
    * libm_pow (libm_sin (dlon / 2)) 2.

Definition haversine (lat1 lon1 lat2 lon2 : float) : result float :=
  let a := haversine_a lat1 lon1 lat2 lon2 in
  (sqrt_a <- math_sqrt a ;;
   sqrt_1a <- math_sqrt (1 - a) ;;
   let c := 2 * libm_atan2 sqrt_a sqrt_1a in
   Ok (6371 * c))%py.
End Libm.

(** The correctly rounded values of the C library at the arguments
    that the query below reaches, and 0 elsewhere. *)
Definition table_sin (x : float) : float :=
  if x =? 0x1.6e6127ff9d971p+0 then 0x1.fb046a930947ap-1
  else if x =? 0x1.921fb54442d18p+0 then 1
       else 0.

Definition table_cos (x : float) : float :=
  if abs x =? 0x1.6e6127ff9d971p+0 then 0x1.1d06c968d9e1ap-3 else 0.

Definition table_pow (x y : float) : float :=
  if x =? 0x1.fb046a930947ap-1 then 0x1.f6153f1af3dc1p-1
  else if x =? 1 then 1
       else 0.

Definition table_atan2 (y x : float) : float := 0.
End Binary64.


(** ** The aggregator of [__main__.py]: [metar_nearby_station]

    It reads the registry through [stations], whose records are
    instances of the dataclass [station], and subscripts them. *)

(** [st[key]]: the class [station] defines no item access, the
    subscript raises [TypeError] for every key. *)
Definition station_getitem (st : station) (key : string) : result str :=
  Raise TypeError.

(** [dms_to_decimal(x) if isinstance(x, str) else x] *)
Definition to_decimal (x : str + Q) : result Q :=
  match x with
  | inl dms => dms_to_decimal dms
  | inr q => Ok q
  end.

Definition nonempty (s : str) : bool :=
  match s with [] => false | _ :: _ => true end.

(** The [try] of the first loop: the pair it appends, if any. *)
Definition station_distance_try (latitude longitude max_distance : Q) (st : station)
  : result (option (station * R)) :=
  (lat_s <- station_getitem st "latitude" ;;
   if nonempty lat_s then
     lon_s <- station_getitem st "longitude" ;;
     if nonempty lon_s then
       lat_s' <- station_getitem st "latitude" ;;
       station_lat <- dms_to_decimal lat_s' ;;
       lon_s' <- station_getitem st "longitude" ;;
       station_lon <- dms_to_decimal lon_s' ;;
       distance <- haversine (Q2R latitude) (Q2R longitude)
                     (Q2R station_lat) (Q2R station_lon) ;;
       Ok (if Rleb distance (Q2R max_distance) then Some (st, distance) else None)
     else Ok None
   else Ok None)%py.

(** The first loop; [except ValueError: continue] lets every other
    exception through. *)
Fixpoint station_distances (latitude longitude max_distance : Q)
    (items : list (str * station)) : result (list (station * R)) :=
  match items with
  | [] => Ok []
  | (code, st) :: rest =>
      match station_distance_try latitude longitude max_distance st with
      | Raise ValueError => station_distances latitude longitude max_distance rest
      | Raise e => Raise e
      | Ok found =>
          match station_distances latitude longitude max_distance rest with
          | Raise e => Raise e
          | Ok distances =>
              Ok (match found with
                  | Some within => within :: distances
                  | None => distances
                  end)
          end
      end
  end.

Definition label_of_name (station_name : str) (distance : R) (compass : str)
    (delta : Z) : str :=
  station_name ++ lit ": " ++ str_of_int (round_float distance) ++ lit "km "
  ++ compass ++ lit " "
  ++ str_of_int (round_half_even (total_seconds (Z.abs delta) / 60))
  ++ lit "m ago".

Section MainModule.

Variable World : Type.
Variable http_get_text : str -> World -> result str * World.
Variable strptime : str -> result Z.
Variable datetime_now : World -> Z * World.

(** The rows [csv.DictReader] reads from the page of the registry, or
    the exception of the HTTP client. *)
Variable registry_rows : World -> result (list (list str)) * World.

(** [metar] of [__main__.py]: the difference [time - now] and the
    report. *)
Definition metar_delta (code : str) (w : World) : result (Z * str) * World :=
  let '(response, w1) := http_get_text (URL (upper code)) w in
  match response with
  | Raise e => (Raise e, w1)
  | Ok text =>
      match firstn 2 (split "010"%char text) with
      | [time_str; report] =>
          match strptime time_str with
          | Raise e => (Raise e, w1)
          | Ok time =>
              let '(now, w2) := datetime_now w1 in
              (Ok ((time - now)%Z, join (lit " ") (skipn 2 (split " "%char report))), w2)
          end
      | _ => (Raise ValueError, w1)
      end
  end.

(** The [try] of the second loop. *)
Definition station_try_body (latitude longitude : Q) (max_seconds_ago : Z)
    (c : station * R) (w : World) : result (option (str * str)) * World :=
  let '(st, distance) := c in
  match (lat_s <- station_getitem st "latitude" ;;
         station_lat <- dms_to_decimal lat_s ;;
         lon_s <- station_getitem st "longitude" ;;
         station_lon <- dms_to_decimal lon_s ;;
         bearing_to_compass
           (bearing (Q2R latitude) (Q2R longitude) (Q2R station_lat) (Q2R station_lon)))%py
  with
  | Raise e => (Raise e, w)
  | Ok compass =>
      match station_getitem st "code" with
      | Raise e => (Raise e, w)
      | Ok code =>
          let '(fetched, w1) := metar_delta code w in
          match fetched with
          | Raise e => (Raise e, w1)
          | Ok (delta, report) =>
              if fresh delta max_seconds_ago then
                match station_getitem st "name" with
                | Raise e => (Raise e, w1)
                | Ok station_name =>
                    (Ok (Some (label_of_name station_name distance compass delta,
                               report)), w1)
                end
              else (Ok None, w1)
          end
      end
  end.

Fixpoint station_report_loop (latitude longitude : Q) (max_seconds_ago : Z)
    (cands : list (station * R)) (res : dict str) (w : World) : dict str * World :=
  match cands with
  | [] => (res, w)
  | c :: rest =>
      let '(outcome, w') := station_try_body latitude longitude max_seconds_ago c w in
      match outcome with
      | Ok (Some (k, report)) =>
          station_report_loop latitude longitude max_seconds_ago rest
            (dict_set res k report) w'
      | Ok None => station_report_loop latitude longitude max_seconds_ago rest res w'
      | Raise _ => station_report_loop latitude longitude max_seconds_ago rest res w'
      end
  end.

Definition metar_nearby_station (latitude_dms longitude_dms : str + Q)
    (max_distance : Q) (max_seconds_ago : Z) (w : World)
  : result (dict str) * World :=
  match to_decimal latitude_dms with
  | Raise e => (Raise e, w)
  | Ok latitude =>
      match to_decimal longitude_dms with
      | Raise e => (Raise e, w)
      | Ok longitude =>
          let '(page, w1) := registry_rows w in
          match (rows <- page ;; stations rows)%py with
          | Raise e => (Raise e, w1)
          | Ok registry =>
              match station_distances latitude longitude max_distance registry with
              | Raise e => (Raise e, w1)
              | Ok distances =>
                  let '(res, w2) :=
                    station_report_loop latitude longitude max_seconds_ago
                      (sort_by (@snd station R) Rleb distances) [] w1 in
                  (Ok res, w2)
              end
          end
      end
  end.

End MainModule.

(** ** [sun] of [__init__.py]

    The three times the ephemeris gives for the observer, each of which
    may raise, are parameters, as microseconds; [utcoffset] is the
    offset of the local time zone, [datetime.now().astimezone().utcoffset()]. *)

(** Two digits, as [time.isoformat] prints hours and minutes. *)
Definition two_digits (n : Z) : str :=
  if (n <? 10)%Z then lit "0" ++ str_of_int n else str_of_int n.

(** [t.time().isoformat(timespec="minutes")] *)
Definition isoformat_minutes (t : Z) : str :=
  let of_day := (t mod 86400000000)%Z in
  two_digits (of_day / 3600000000) ++ lit ":" ++ two_digits ((of_day / 60000000) mod 60).

(** [int(delta.total_seconds())]: whole seconds, towards zero. *)
Definition whole_seconds (delta : Z) : Z := Z.quot delta 1000000.

Section Sun.

Variables (next_rising next_setting previous_rising : Q -> Q -> result Z).
Variable utcoffset : Z.

Definition sun (latitude longitude : Q) : result (str * str * str) :=
  (sunrise <- next_rising latitude longitude ;;
   sunset <- next_setting latitude longitude ;;
   sunrise <- (if (sunset <? sunrise)%Z
               then previous_rising latitude longitude
               else Ok sunrise) ;;
   let sunrise := (sunrise + utcoffset)%Z in
   let sunset := (sunset + utcoffset)%Z in
   let seconds := whole_seconds (sunset - sunrise) in
   let hours := (seconds / 3600)%Z in
   let remainder := (seconds mod 3600)%Z in
   let minutes := (remainder / 60)%Z in
   Ok (isoformat_minutes sunrise, isoformat_minutes sunset,
       str_of_int hours ++ lit ":" ++ str_of_int minutes))%py.

End Sun.

(** * Properties *)

(** The two conversions the specification quotes. *)
Example dms_40_38_23N :
  dms_to_decimal (lit "40-38-23N") = Ok (40 + 38 / 60 + 23 / 3600)%Q.
Proof. reflexivity. Qed.

Example dms_073_47_00W :
  dms_to_decimal (lit "073-47-00W") = Ok (- (73 + 47 / 60 + 0 / 3600))%Q.
Proof. reflexivity. Qed.

(** ** Strings and integer literals *)

Lemma split_without_sep (sep : ascii) (s : str) :
  Forall (fun c => c <> sep) s -> split sep s = [s].
Proof.
  induction 1 as [|c rest Hc _ IH]; simpl; [reflexivity|].
  apply Ascii.eqb_neq in Hc. rewrite Hc, IH. reflexivity.
Qed.

Lemma split_app_sep (sep : ascii) (a b : str) :
  Forall (fun c => c <> sep) a ->
  split sep (a ++ sep :: b) = a :: split sep b.
Proof.
  induction 1 as [|c rest Hc _ IH]; simpl.
  - rewrite Ascii.eqb_refl. reflexivity.
  - apply Ascii.eqb_neq in Hc. rewrite Hc, IH. reflexivity.
Qed.

Lemma split_join (sep : ascii) (parts : list str) :
  parts <> [] ->
  Forall (Forall (fun c => c <> sep)) parts ->
  split sep (join [sep] parts) = parts.
Proof.
  intros Hne Hall. revert Hne.
  induction Hall as [|p rest Hp Hrest IH]; intros Hne; [now elim Hne|].
  destruct rest as [|q rest'].
  - simpl. apply split_without_sep, Hp.
  - change (join [sep] (p :: q :: rest')) with (p ++ sep :: join [sep] (q :: rest')).
    rewrite split_app_sep by exact Hp.
    rewrite IH by discriminate. reflexivity.
Qed.

Lemma digit_not_space (c : ascii) : is_digit c = true -> is_space c = false.
Proof.
  unfold is_digit, is_space. intros H.
  apply andb_true_iff in H. destruct H as [H1 H2].
  apply Nat.leb_le in H1. apply Nat.leb_le in H2.
  repeat match goal with
         | |- context [(?a <=? ?b)%nat] => destruct (Nat.leb_spec a b)
         | |- context [(?a =? ?b)%nat] => destruct (Nat.eqb_spec a b)
         end; simpl; try reflexivity; lia.
Qed.

Lemma digit_neq (c d : ascii) :
  is_digit c = true -> is_digit d = false -> Ascii.eqb c d = false.
Proof.
  intros Hc Hd. apply Ascii.eqb_neq. intros ->. congruence.
Qed.

Lemma digit_value_nonneg (c : ascii) : is_digit c = true -> (0 <= digit_value c)%Z.
Proof.
  unfold is_digit, digit_value. intros H.
  apply andb_true_iff in H. destruct H as [H1 _].
  apply Nat.leb_le in H1. lia.
Qed.

Lemma lstrip_digit (s : str) :
  Forall (fun c => is_digit c = true) s -> lstrip s = s.
Proof.
  destruct 1 as [|c rest Hc _]; simpl; [reflexivity|].
  rewrite (digit_not_space _ Hc). reflexivity.
Qed.

Lemma strip_digits (s : str) :
  Forall (fun c => is_digit c = true) s -> strip s = s.
Proof.
  intros H. unfold strip. rewrite (lstrip_digit H).
  rewrite lstrip_digit by (apply Forall_rev, H).
  apply rev_involutive.
Qed.

Lemma scan_digits_all (s : str) : forall acc,
  Forall (fun c => is_digit c = true) s ->
  scan_digits false acc s
  = Some (fold_left (fun a c => (10 * a + digit_value c)%Z) s acc).
Proof.
  induction s as [|c rest IH]; intros acc H; simpl; [reflexivity|].
  inversion H as [|? ? Hc Hrest]; subst.
  rewrite Hc. apply IH, Hrest.
Qed.

Lemma fold_digits_nonneg (s : str) : forall acc,
  Forall (fun c => is_digit c = true) s -> (0 <= acc)%Z ->
  (0 <= fold_left (fun a c => (10 * a + digit_value c)%Z) s acc)%Z.
Proof.
  induction s as [|c rest IH]; intros acc H Hacc; cbn [fold_left]; [exact Hacc|].
  inversion H as [|? ? Hc Hrest]; subst.
  apply IH; [exact Hrest|]. pose proof (digit_value_nonneg _ Hc). lia.
Qed.

Lemma decimal_value_nonneg (s : str) :
  Forall (fun c => is_digit c = true) s -> (0 <= decimal_value s)%Z.
Proof. intros H. apply fold_digits_nonneg; [exact H | lia]. Qed.

Lemma py_int_digit_string (s : str) :
  digit_string s -> py_int s = Ok (decimal_value s).
Proof.
  intros [Hne Hall]. unfold py_int. rewrite (strip_digits Hall).
  destruct s as [|c rest]; [congruence|].
  inversion Hall as [|? ? Hc Hrest]; subst.
  rewrite (digit_neq c "-" Hc eq_refl), (digit_neq c "+" Hc eq_refl).
  unfold parse_digits. rewrite Hc, (scan_digits_all _ Hrest).
  unfold decimal_value. simpl.
  replace (0 + digit_value c)%Z with (digit_value c) by lia. reflexivity.
Qed.

Lemma digit_string_no_dash (s : str) :
  digit_string s -> Forall (fun c => c <> "-"%char) s.
Proof.
  intros [_ Hall]. eapply Forall_impl; [|exact Hall].
  intros c Hc ->. discriminate Hc.
Qed.

(** ** Coordinate conversion *)

Lemma map_result_ok {A B : Type} (f : A -> result B) (g : A -> B) (xs : list A) :
  Forall (fun x => f x = Ok (g x)) xs -> map_result f xs = Ok (map g xs).
Proof.
  induction 1 as [|x rest Hx _ IH]; simpl; [reflexivity|].
  rewrite Hx, IH. reflexivity.
Qed.

Lemma map_result_length {A B : Type} (f : A -> result B) (xs : list A) :
  forall ys, map_result f xs = Ok ys -> List.length ys = List.length xs.
Proof.
  induction xs as [|x rest IH]; simpl; intros ys H.
  - inversion H. reflexivity.
  - destruct (f x); [|discriminate].
    destruct (map_result f rest) as [zs|]; [|discriminate].
    inversion H; subst. simpl. f_equal. apply IH. reflexivity.
Qed.

Lemma map_result_raise {A B : Type} (f : A -> result B) (xs : list A) (e : exn) :
  map_result f xs = Raise e -> exists x, In x xs /\ f x = Raise e.
Proof.
  induction xs as [|x rest IH]; simpl; [discriminate|].
  destruct (f x) as [y|e'] eqn:Hx.
  - destruct (map_result f rest) as [ys|e'']; [discriminate|].
    intros H. destruct (IH H) as [x' [Hin Hx']]. exists x'. auto.
  - intros H. inversion H; subst. exists x. auto.
Qed.

Lemma map_result_in_raise {A B : Type} (f : A -> result B) (xs : list A) (x : A) (e : exn) :
  In x xs -> f x = Raise e -> exists e', map_result f xs = Raise e'.
Proof.
  induction xs as [|y rest IH]; simpl; [tauto|].
  intros [-> | Hin] Hx.
  - rewrite Hx. eauto.
  - destruct (f y); [|eauto].
    destruct (IH Hin Hx) as [e' He']. rewrite He'. eauto.
Qed.

Lemma py_int_raises_value_error (s : str) (e : exn) :
  py_int s = Raise e -> e = ValueError.
Proof.
  unfold py_int.
  destruct (match strip s with
            | [] => (false, strip s)
            | c :: rest =>
                if Ascii.eqb c "-" then (true, rest)
                else if Ascii.eqb c "+" then (false, rest) else (false, strip s)
            end) as [negative body].
  destruct (parse_digits body); [discriminate|]. congruence.
Qed.

Lemma decimal_of_nonneg (d m s : Z) :
  (0 <= d)%Z -> (0 <= m)%Z -> (0 <= s)%Z -> (0 <= decimal_of d m s)%Q.
Proof.
  intros Hd Hm Hs. unfold decimal_of.
  assert (H60 : (0 <= inject_Z m / 60)%Q).
  { apply Qle_shift_div_l; [reflexivity|]. rewrite Qmult_0_l.
    unfold Qle; simpl; lia. }
  assert (H3600 : (0 <= inject_Z s / 3600)%Q).
  { apply Qle_shift_div_l; [reflexivity|]. rewrite Qmult_0_l.
    unfold Qle; simpl; lia. }
  assert (Hdq : (0 <= inject_Z d)%Q) by (unfold Qle; simpl; lia).
  pose proof (Qplus_le_compat _ _ _ _ Hdq H60) as H1.
  pose proof (Qplus_le_compat _ _ _ _ H1 H3600) as H2.
  rewrite !Qplus_0_l in H2. exact H2.
Qed.

(** The [pad3] of a list is a triple exactly when the list has at most
    three elements. *)
Lemma pad3_triple (numbers : list Z) :
  (List.length numbers <= 3)%nat ->
  pad3 numbers = [nth 0 numbers 0%Z; nth 1 numbers 0%Z; nth 2 numbers 0%Z].
Proof.
  intros H. destruct numbers as [|a [|b [|c [|d rest]]]]; try reflexivity.
  simpl in H. lia.
Qed.

Lemma pad3_long (numbers : list Z) :
  (3 < List.length numbers)%nat ->
  exists a b c d rest, pad3 numbers = a :: b :: c :: d :: rest.
Proof.
  intros H. destruct numbers as [|a [|b [|c [|d rest]]]]; simpl in H; try lia.
  exists a, b, c, d, rest. unfold pad3. simpl. rewrite app_nil_r. reflexivity.
Qed.

(** What [dms_to_decimal] does on a non-empty token, in terms of its
    segments. *)
Lemma dms_to_decimal_snoc (body : str) (direction : ascii) :
  dms_to_decimal (body ++ [direction])
  = match map_result py_int (split "-"%char body) with
    | Raise e => Raise e
    | Ok numbers =>
        if (List.length numbers <=? 3)%nat then
          let decimal := decimal_of (nth 0 numbers 0%Z) (nth 1 numbers 0%Z)
                           (nth 2 numbers 0%Z) in
          Ok (if in_SW direction then (- decimal)%Q else decimal)
        else Raise ValueError
    end.
Proof.
  unfold dms_to_decimal. rewrite rev_unit, removelast_last. unfold bind.
  destruct (map_result py_int (split "-"%char body)) as [numbers|e]; [|reflexivity].
  destruct (Nat.leb_spec (List.length numbers) 3) as [Hle|Hgt].
  - rewrite (pad3_triple _ Hle). reflexivity.
  - destruct (pad3_long _ Hgt) as (a & b & c & d & rest & Hpad).
    rewrite Hpad. reflexivity.
Qed.

Lemma nonempty_snoc {A : Type} (l : list A) :
  l <> [] -> exists body x, l = body ++ [x].
Proof.
  intros H. destruct (exists_last H) as (body & x & ->). eauto.
Qed.





(** ** Dictionaries *)

Lemma str_eqb_eq (a b : str) : str_eqb a b = true <-> a = b.
Proof.
  unfold str_eqb. destruct (list_eq_dec ascii_dec a b); split; congruence.
Qed.

Lemma str_eqb_refl (a : str) : str_eqb a a = true.
Proof. apply str_eqb_eq. reflexivity. Qed.

Lemma dict_get_set {V : Type} (d : dict V) (k k' : str) (v : V) :
  dict_get (dict_set d k v) k'
  = if str_eqb k k' then Some v else dict_get d k'.
Proof.
  induction d as [|[k0 v0] rest IH]; simpl.
  - reflexivity.
  - destruct (str_eqb k0 k) eqn:Hk0; simpl.
    + apply str_eqb_eq in Hk0. subst k0.
      destruct (str_eqb k k'); reflexivity.
    + destruct (str_eqb k0 k') eqn:Hk0'.
      * apply str_eqb_eq in Hk0'. subst k0.
        destruct (str_eqb k k') eqn:Hkk'; [|reflexivity].
        apply str_eqb_eq in Hkk'. subst k. rewrite str_eqb_refl in Hk0. discriminate.
      * exact IH.
Qed.

(** ** The registry parser *)

(** A parse that returns a mapping went through every row without an
    exception. *)
Lemma stations_loop_rows_ok (rows : list (list str)) : forall res reg,
  stations_loop res rows = Ok reg ->
  Forall (fun row => has_coordinates row = true ->
                     is_ok (build_station row) = true) rows.
Proof.
  induction rows as [|row rest IH]; intros res reg H; [constructor|].
  simpl in H.
  destruct (stations_row res row) as [res'|e] eqn:Hrow; [|discriminate].
  constructor; [|exact (IH _ _ H)].
  intros Hcoord. unfold stations_row in Hrow.
  destruct row as [|code fields]; [discriminate Hcoord|].
  rewrite Hcoord in Hrow.
  destruct (build_station (code :: fields)); [reflexivity | discriminate].
Qed.

(** Every record of the mapping was built from a row of the feed that
    carries its code, unless it was in the mapping to start with. *)
Lemma stations_loop_get (rows : list (list str)) : forall res reg code st,
  stations_loop res rows = Ok reg ->
  dict_get reg code = Some st ->
  dict_get res code = Some st
  \/ exists row, In row rows /\ hd_error row = Some code
                 /\ has_coordinates row = true /\ build_station row = Ok st.
Proof.
  induction rows as [|row rest IH]; intros res reg code st H Hget; simpl in H.
  - inversion H; subst. left. exact Hget.
  - destruct (stations_row res row) as [res'|e] eqn:Hrow; [|discriminate].
    destruct (IH _ _ _ _ H Hget) as [Hres' | (row' & Hin & Hrest)].
    + unfold stations_row in Hrow.
      destruct row as [|code' fields]; [inversion Hrow; subst; auto|].
      destruct (has_coordinates (code' :: fields)) eqn:Hcoord;
        [|inversion Hrow; subst; auto].
      destruct (build_station (code' :: fields)) as [st'|] eqn:Hbuild; [|discriminate].
      inversion Hrow; subst res'. rewrite dict_get_set in Hres'.
      destruct (str_eqb code' code) eqn:Hcode; [|auto].
      apply str_eqb_eq in Hcode. subst code'. inversion Hres'; subst st'.
      right. exists (code :: fields). simpl. auto.
    + right. exists row'. simpl. tauto.
Qed.

(** Claim C2, at the failing input.  A record whose latitude does not
    convert is not skipped: the [ValueError] leaves [stations], and no
    mapping is returned for the record that follows, which parses well
    on its own. *)
Lemma stations_bad_latitude_aborts :
  let bad := csv_row "AAAA;1;2;Alpha;;Atlantis;6;4X-38N;073-47W;;;12" in
  let good := csv_row "BBBB;1;2;Beta;;Atlantis;6;40-38N;073-47W;;;12" in
  has_coordinates bad = true
  /\ reader_get FIELDNAMES bad f_latitude = Some (lit "4X-38N")
  /\ dms_to_decimal (lit "4X-38N") = Raise ValueError
  /\ is_ok (stations [good]) = true
  /\ stations [bad; good] = Raise ValueError
  /\ ~ exists reg, stations [bad; good] = Ok reg.
Proof.
  cbv zeta. repeat split; try (vm_compute; reflexivity).
  intros [reg H]. vm_compute in H. discriminate H.
Qed.

(** The same for every feed.  When the latitude and the longitude of a
    record are non-empty and one of them does not convert, the exception
    of [dms_to_decimal] is not caught in [stations]: the whole parse
    raises and returns no mapping. *)
Theorem stations_conversion_failure_propagates
    (rows : list (list str)) (row : list str) (lat lon : str) :
  In row rows ->
  reader_get FIELDNAMES row f_latitude = Some lat -> lat <> [] ->
  reader_get FIELDNAMES row f_longitude = Some lon -> lon <> [] ->
  is_ok (dms_to_decimal lat) = false \/ is_ok (dms_to_decimal lon) = false ->
  exists e, stations rows = Raise e.
Proof.
  intros Hin Hlat Hlat_ne Hlon Hlon_ne Hfail.
  destruct (stations rows) as [reg|e] eqn:Hparse; [exfalso | eauto].
  pose proof (stations_loop_rows_ok _ _ Hparse) as Hall.
  rewrite Forall_forall in Hall. specialize (Hall _ Hin).
  assert (Hcoord : has_coordinates row = true).
  { unfold has_coordinates. rewrite Hlat, Hlon.
    destruct lat; [congruence|]. destruct lon; [congruence|]. reflexivity. }
  specialize (Hall Hcoord). unfold build_station in Hall.
  rewrite Hlat, Hlon in Hall. unfold bind in Hall.
  destruct (dms_to_decimal lat); [|discriminate Hall].
  destruct (dms_to_decimal lon); [|discriminate Hall].
  destruct Hfail as [Hf | Hf]; discriminate Hf.
Qed.

Lemma stations_conversion_failure_propagates_witness :
  exists e,
    stations [csv_row "BBBB;1;2;Beta;;Atlantis;6;40-38N;073-47W;;;12";
              csv_row "AAAA;1;2;Alpha;;Atlantis;6;40-38N;07E-47W;;;12"] = Raise e.
Proof.
  apply (@stations_conversion_failure_propagates _
           (csv_row "AAAA;1;2;Alpha;;Atlantis;6;40-38N;07E-47W;;;12")
           (lit "40-38N") (lit "07E-47W")).
  - right; left; reflexivity.
  - reflexivity.
  - discriminate.
  - reflexivity.
  - discriminate.
  - right. vm_compute. reflexivity.
Defined.

(** The fields of a record, read off the row it was built from. *)
Lemma build_station_fields (row : list str) (st : station) :
  build_station row = Ok st ->
  let d := reader_get FIELDNAMES row in
  (exists raw, d f_name = Some raw /\ raw <> [] /\ name st = strip raw)
  /\ country st = kw_str (d f_country)
  /\ kw_altitude (d f_altitude) = Ok (altitude st).
Proof.
  unfold build_station. cbv zeta.
  destruct (reader_get FIELDNAMES row f_latitude) as [lat|]; [|discriminate].
  destruct (reader_get FIELDNAMES row f_longitude) as [lon|]; [|discriminate].
  unfold bind.
  destruct (dms_to_decimal lat) as [qlat|]; [|discriminate].
  destruct (dms_to_decimal lon) as [qlon|]; [|discriminate].
  destruct (kw_altitude (reader_get FIELDNAMES row f_altitude)) as [alt|]; [|discriminate].
  unfold make_station.
  destruct (reader_get FIELDNAMES row f_name) as [[|c raw]|]; simpl; try discriminate.
  intros H. inversion H; subst st. simpl.
  split; [|split; reflexivity].
  exists (c :: raw). repeat split. discriminate.
Qed.

(** Claim C9, the input that refutes it.  A name or a country made of
    white space only passes the emptiness test, is stripped afterwards
    and is stored as the empty string. *)
Lemma stations_blank_field_stored_empty :
  let row := csv_row "CCCC;1;2; ;; ;6;40-38N;073-47W;;;12" in
  reader_get FIELDNAMES row f_name = Some (lit " ")
  /\ reader_get FIELDNAMES row f_country = Some (lit " ")
  /\ exists st,
       stations [row] = Ok [(lit "CCCC", st)]
       /\ name st = []
       /\ country st = Some []
       /\ altitude st = Some 12%Z.
Proof.
  cbv zeta. split; [reflexivity|]. split; [reflexivity|].
  eexists. split; [vm_compute; reflexivity|].
  repeat split.
Qed.

(** Claim C9, as the code has it.  Every record of the mapping comes
    from a row of the feed with its code and with both coordinates, and
    for that row: the name is not empty (a record without a name cannot
    be built); an empty or missing country is absent from the record,
    not stored as an empty string; an empty or missing altitude is
    absent, and a non-empty altitude is stored as the integer [int]
    reads in it. *)
Theorem stations_record_fields
    (rows : list (list str)) (reg : dict station) (code : str) (st : station) :
  stations rows = Ok reg ->
  dict_get reg code = Some st ->
  exists row,
    In row rows /\ hd_error row = Some code /\ has_coordinates row = true
    /\ let d := reader_get FIELDNAMES row in
       (exists raw, d f_name = Some raw /\ raw <> [] /\ name st = strip raw)
       /\ (d f_country = None \/ d f_country = Some [] -> country st = None)
       /\ (forall raw, d f_country = Some raw -> raw <> [] ->
                       country st = Some (strip raw))
       /\ (d f_altitude = None \/ d f_altitude = Some [] -> altitude st = None)
       /\ (forall raw, d f_altitude = Some raw -> raw <> [] ->
                       exists n, py_int (strip raw) = Ok n /\ altitude st = Some n).
Proof.
  intros Hparse Hget.
  destruct (stations_loop_get _ _ _ Hparse Hget) as [Hnil | (row & Hin & Hhd & Hcoord & Hbuild)];
    [discriminate Hnil|].
  exists row. split; [exact Hin|]. split; [exact Hhd|]. split; [exact Hcoord|].
  destruct (build_station_fields _ Hbuild) as (Hname & Hcountry & Halt).
  cbv zeta. split; [exact Hname|]. split; [|split; [|split]].
  - intros [H | H]; rewrite Hcountry, H; reflexivity.
  - intros raw H Hne. rewrite Hcountry, H. destruct raw; [congruence | reflexivity].
  - intros [H | H]; rewrite H in Halt; simpl in Halt; congruence.
  - intros raw H Hne. rewrite H in Halt. destruct raw as [|c raw]; [congruence|].
    simpl in Halt.
    destruct (py_int (strip (c :: raw))) as [n|]; [|discriminate].
    exists n. split; [reflexivity | congruence].
Qed.

Lemma stations_record_fields_witness :
  exists st,
    dict_get [(lit "BBBB", st)] (lit "BBBB") = Some st
    /\ name st = lit "Beta" /\ country st = None /\ altitude st = Some 12%Z.
Proof.
  pose (row := csv_row "BBBB;1;2;Beta;;;6;40-38N;073-47W;;; 12 ").
  destruct (stations [row]) as [reg|e] eqn:Hparse; [|vm_compute in Hparse; discriminate].
  assert (Hreg : exists st, reg = [(lit "BBBB", st)]).
  { vm_compute in Hparse. inversion Hparse. eauto. }
  destruct Hreg as [st ->]. exists st.
  assert (Hget : dict_get [(lit "BBBB", st)] (lit "BBBB") = Some st) by reflexivity.
  destruct (stations_record_fields [row] (lit "BBBB") Hparse Hget)
    as (row' & [<- | []] & _ & _ & Hfields).
  cbv zeta in Hfields.
  destruct Hfields as ((raw & Hraw & _ & Hname) & Hc0 & _ & _ & Halt).
  split; [exact Hget|]. split; [|split].
  - rewrite Hname. inversion Hraw. reflexivity.
  - apply Hc0. right. reflexivity.
  - destruct (Halt (lit " 12 ") eq_refl) as (n & Hn & Hst); [discriminate|].
    rewrite Hst. vm_compute in Hn. inversion Hn. reflexivity.
Defined.

(** ** Geodesy *)

Lemma radians_minus (x y : R) : (radians (x - y) = radians x - radians y)%R.
Proof. unfold radians. field. Qed.

Lemma sin_sq_bounds (x : R) : (0 <= sin x ^ 2 <= 1)%R.
Proof.
  pose proof (sin2_cos2 x) as H. unfold Rsqr in H.
  pose proof (pow2_ge_0 (sin x)). pose proof (pow2_ge_0 (cos x)).
  split; [assumption|]. simpl in *. lra.
Qed.

Lemma sin_sq_half (x : R) : (sin (x / 2) ^ 2 = (1 - cos x) / 2)%R.
Proof.
  pose proof (cos_2a_sin (x / 2)) as H.
  replace (2 * (x / 2))%R with x in H by field.
  simpl. lra.
Qed.

(** The value under the square roots of [haversine] lies in [[0, 1]]
    for all real arguments. *)
Lemma haversine_a_bounds (lat1 lon1 lat2 lon2 : R) :
  (0 <= haversine_a lat1 lon1 lat2 lon2 <= 1)%R.
Proof.
  unfold haversine_a. cbv zeta.
  rewrite sin_sq_half, radians_minus, cos_minus.
  destruct (sin_sq_bounds (radians (lon2 - lon1) / 2)) as [Hh0 Hh1].
  set (h := (sin (radians (lon2 - lon1) / 2) ^ 2)%R) in *.
  pose proof (sin2_cos2 (radians lat1)) as H1. unfold Rsqr in H1.
  pose proof (sin2_cos2 (radians lat2)) as H2. unfold Rsqr in H2.
  set (s1 := sin (radians lat1)) in *. set (c1 := cos (radians lat1)) in *.
  set (s2 := sin (radians lat2)) in *. set (c2 := cos (radians lat2)) in *.
  set (t := (1 - 2 * h)%R).
  assert (Ht : (0 <= c2 * c2 * (1 - t * t))%R).
  { apply Rmult_le_pos; [apply Rle_0_sqr|].
    unfold t. replace (1 - (1 - 2 * h) * (1 - 2 * h))%R with (4 * (h * (1 - h)))%R by ring.
    apply Rmult_le_pos; [lra|]. apply Rmult_le_pos; lra. }
  assert (Hlow : (2 * (1 - s1 * s2 - c1 * c2 * t)
                  = (s1 - s2) * (s1 - s2) + (c1 - c2 * t) * (c1 - c2 * t)
                    + c2 * c2 * (1 - t * t)
                    + (1 - (s1 * s1 + c1 * c1)) + (1 - (s2 * s2 + c2 * c2)))%R) by ring.
  assert (Hhigh : (2 * (1 + s1 * s2 + c1 * c2 * t)
                   = (s1 + s2) * (s1 + s2) + (c1 + c2 * t) * (c1 + c2 * t)
                     + c2 * c2 * (1 - t * t)
                     + (1 - (s1 * s1 + c1 * c1)) + (1 - (s2 * s2 + c2 * c2)))%R) by ring.
  pose proof (Rle_0_sqr (s1 - s2)) as Q1. pose proof (Rle_0_sqr (c1 - c2 * t)) as Q2.
  pose proof (Rle_0_sqr (s1 + s2)) as Q3. pose proof (Rle_0_sqr (c1 + c2 * t)) as Q4.
  unfold Rsqr in Q1, Q2, Q3, Q4.
  assert (Ha : ((1 - (c2 * c1 + s2 * s1)) / 2 + c1 * c2 * h
                = (1 - s1 * s2 - c1 * c2 * t) / 2)%R) by (unfold t; field).
  assert (Hb : (1 - ((1 - (c2 * c1 + s2 * s1)) / 2 + c1 * c2 * h)
                = (1 + s1 * s2 + c1 * c2 * t) / 2)%R) by (unfold t; field).
  split; lra.
Qed.

Lemma atan_nonneg (x : R) : (0 <= x)%R -> (0 <= atan x)%R.
Proof.
  intros [Hpos | <-].
  - left. rewrite <- atan_0. apply atan_increasing, Hpos.
  - rewrite atan_0. apply Rle_refl.
Qed.

(** In the first quadrant [atan2] is an angle between 0 and a right angle. *)
Lemma atan2_first_quadrant (y x : R) :
  (0 <= y)%R -> (0 <= x)%R -> (0 <= atan2 y x <= PI / 2)%R.
Proof.
  intros Hy Hx. unfold atan2. pose proof PI_RGT_0 as Hpi.
  destruct (Rlt_dec 0 x) as [Hx0|Hx0].
  - split.
    + apply atan_nonneg. apply Rmult_le_pos; [exact Hy|].
      left. apply Rinv_0_lt_compat, Hx0.
    + left. apply atan_bound.
  - destruct (Rlt_dec x 0); [lra|].
    destruct (Rlt_dec 0 y); [lra|].
    destruct (Rlt_dec y 0); lra.
Qed.

(** Over the real numbers [haversine] never raises, and its value is a
    distance between 0 and half the circumference.  What the rounding of
    the machine makes of it is the matter of [Binary64] below. *)
Lemma haversine_total (lat1 lon1 lat2 lon2 : R) :
  exists d, haversine lat1 lon1 lat2 lon2 = Ok d
            /\ (0 <= d <= PI * 6371)%R.
Proof.
  destruct (haversine_a_bounds lat1 lon1 lat2 lon2) as [Ha0 Ha1].
  unfold haversine. cbv zeta. unfold math_sqrt, bind.
  destruct (Rle_dec 0 (haversine_a lat1 lon1 lat2 lon2)); [|lra].
  destruct (Rle_dec 0 (1 - haversine_a lat1 lon1 lat2 lon2)); [|lra].
  eexists. split; [reflexivity|].
  destruct (atan2_first_quadrant (sqrt_pos (haversine_a lat1 lon1 lat2 lon2))
              (sqrt_pos (1 - haversine_a lat1 lon1 lat2 lon2))) as [Hc0 Hc1].
  unfold earth_radius. lra.
Qed.

(** *** The compass rose *)

Lemma sector_size_value : sector_size = (45 / 2)%R.
Proof.
  unfold sector_size.
  replace (List.length compass_sectors) with 16%nat by reflexivity.
  rewrite INR_IZR_INZ. simpl. lra.
Qed.

Lemma int_of_float_nonneg (x : R) : (0 <= x)%R -> int_of_float x = Zfloor x.
Proof. intros H. unfold int_of_float. destruct (Rle_dec 0 x); [reflexivity | lra]. Qed.

Lemma list_index_in_range {A : Type} (l : list A) (i : Z) (d : A) :
  (0 <= i < Z.of_nat (List.length l))%Z ->
  list_index l i = Ok (nth (Z.to_nat i) l d).
Proof.
  intros [Hlo Hhi]. unfold list_index.
  destruct (Z.ltb_spec i 0) as [?|_]; [lia|].
  destruct (Z.ltb_spec i 0) as [?|_]; [lia|].
  rewrite (nth_error_nth' l d) by lia. reflexivity.
Qed.

Lemma sector_index_range (b : R) : (0 <= sector_index b < 16)%Z.
Proof.
  unfold sector_index.
  replace (Z.of_nat (List.length compass_sectors)) with 16%Z by reflexivity.
  apply Z.mod_pos_bound. lia.
Qed.

(** [bearing_to_compass] never leaves the table, whatever the bearing. *)
Lemma bearing_to_compass_ok (b : R) :
  bearing_to_compass b = Ok (nth (Z.to_nat (sector_index b)) compass_sectors []).
Proof.
  unfold bearing_to_compass. apply list_index_in_range.
  replace (Z.of_nat (List.length compass_sectors)) with 16%Z by reflexivity.
  apply sector_index_range.
Qed.

Lemma sector_index_of_floor (b : R) (k : Z) :
  (0 <= k)%Z ->
  (IZR k <= (b + 45 / 4) / (45 / 2) < IZR k + 1)%R ->
  sector_index b = (k mod 16)%Z.
Proof.
  intros Hk Hb. unfold sector_index. rewrite sector_size_value.
  replace (45 / 2 / 2)%R with (45 / 4)%R by field.
  replace (Z.of_nat (List.length compass_sectors)) with 16%Z by reflexivity.
  rewrite int_of_float_nonneg.
  - rewrite (Zfloor_eq k _ Hb). reflexivity.
  - apply IZR_le in Hk. lra.
Qed.



(** ** The stable sort *)

Section SortFacts.
Variables (A K : Type) (key : A -> K) (leb : K -> K -> bool).
Hypothesis leb_total : forall x y, leb x y = true \/ leb y x = true.
Hypothesis leb_trans :
  forall x y z, leb x y = true -> leb y z = true -> leb x z = true.

Let ordered (x y : A) : Prop := leb (key x) (key y) = true.

Lemma insert_by_perm (x : A) (l : list A) :
  Permutation (x :: l) (insert_by key leb x l).
Proof.
  induction l as [|y rest IH]; simpl; [apply Permutation_refl|].
  destruct (leb (key x) (key y)); [apply Permutation_refl|].
  eapply perm_trans; [apply perm_swap|]. apply perm_skip, IH.
Qed.

Lemma sort_by_perm (l : list A) : Permutation l (sort_by key leb l).
Proof.
  induction l as [|x rest IH]; simpl; [constructor|].
  eapply perm_trans; [apply perm_skip, IH | apply insert_by_perm].
Qed.

Lemma insert_by_sorted (x : A) (l : list A) :
  StronglySorted ordered l -> StronglySorted ordered (insert_by key leb x l).
Proof.
  induction 1 as [|y rest Hsorted IH Hall]; simpl.
  - repeat constructor.
  - destruct (leb (key x) (key y)) eqn:Hxy.
    + constructor; [constructor; assumption|].
      constructor; [exact Hxy|].
      eapply Forall_impl; [|exact Hall].
      intros z Hyz. exact (@leb_trans _ _ _ Hxy Hyz).
    + constructor; [exact IH|].
      assert (Hyx : ordered y x).
      { destruct (leb_total (key x) (key y)) as [H|H]; [congruence | exact H]. }
      eapply Permutation_Forall; [apply insert_by_perm|].
      constructor; assumption.
Qed.

Lemma sort_by_sorted (l : list A) : StronglySorted ordered (sort_by key leb l).
Proof.
  induction l as [|x rest IH]; simpl; [constructor|].
  apply insert_by_sorted, IH.
Qed.

(** The elements of one key keep the order they had before the sort. *)
Lemma filter_insert_by (k : K) (x : A) (l : list A) :
  filter (fun a => same_key leb k (key a)) (insert_by key leb x l)
  = filter (fun a => same_key leb k (key a)) (x :: l).
Proof.
  induction l as [|y rest IH]; [reflexivity|].
  cbn [insert_by].
  destruct (leb (key x) (key y)) eqn:Hxy; [reflexivity|].
  cbn [filter] in *. rewrite IH.
  destruct (same_key leb k (key x)) eqn:Hx; [|reflexivity].
  destruct (same_key leb k (key y)) eqn:Hy; [|reflexivity].
  unfold same_key in Hx, Hy.
  apply andb_true_iff in Hx. apply andb_true_iff in Hy.
  destruct Hx as [Hx _]. destruct Hy as [_ Hy].
  rewrite (@leb_trans _ _ _ Hx Hy) in Hxy. discriminate.
Qed.

Lemma sort_by_stable (k : K) (l : list A) :
  filter (fun a => same_key leb k (key a)) (sort_by key leb l)
  = filter (fun a => same_key leb k (key a)) l.
Proof.
  induction l as [|x rest IH]; [reflexivity|].
  cbn [sort_by]. rewrite filter_insert_by. cbn [filter]. rewrite IH. reflexivity.
Qed.
End SortFacts.

Lemma Rleb_le (x y : R) : Rleb x y = true <-> (x <= y)%R.
Proof. unfold Rleb. destruct (Rle_dec x y); split; intros; congruence. Qed.

Lemma Rleb_total (x y : R) : Rleb x y = true \/ Rleb y x = true.
Proof. rewrite !Rleb_le. lra. Qed.

Lemma Rleb_trans (x y z : R) :
  Rleb x y = true -> Rleb y z = true -> Rleb x z = true.
Proof. rewrite !Rleb_le. lra. Qed.

(** ** The aggregator *)

Lemma fresh_iff (delta max_seconds_ago : Z) :
  fresh delta max_seconds_ago = true <-> (- max_seconds_ago * 1000000 <= delta)%Z.
Proof.
  unfold fresh. rewrite Qle_bool_iff. unfold Qle, total_seconds. simpl. lia.
Qed.

Lemma fresh_age (delta max_seconds_ago : Z) :
  (inject_Z (- max_seconds_ago) <= total_seconds delta)%Q
  <-> (total_seconds (- delta) <= inject_Z max_seconds_ago)%Q.
Proof. unfold Qle, total_seconds. simpl. lia. Qed.

(** The first loop keeps, in the order of the table, the stations in
    reach, each with its distance. *)
Lemma distances_loop_spec (latitude longitude max_distance : Q)
    (items : list (str * station)) : forall ds,
  distances_loop latitude longitude max_distance items = Ok ds ->
  map fst ds = filter (in_reach latitude longitude max_distance) items
  /\ Forall (fun c =>
       haversine (Q2R latitude) (Q2R longitude)
         (Q2R (fst (coordinate (station_of c))))
         (Q2R (snd (coordinate (station_of c)))) = Ok (distance_of c)
       /\ (distance_of c <= Q2R max_distance)%R) ds.
Proof.
  induction items as [|[code st] rest IH]; intros ds Hds.
  - inversion Hds. split; [reflexivity | constructor].
  - cbn [distances_loop filter] in *. unfold in_reach at 1. cbn [snd].
    destruct (haversine (Q2R latitude) (Q2R longitude)
                (Q2R (fst (coordinate st))) (Q2R (snd (coordinate st))))
      as [d|e] eqn:Hd; [|discriminate Hds].
    unfold bind in Hds.
    destruct (distances_loop latitude longitude max_distance rest)
      as [ds'|e] eqn:Hrest; [|discriminate Hds].
    destruct (IH ds' eq_refl) as [Hmap Hall].
    destruct (Rleb d (Q2R max_distance)) eqn:Hreach; inversion Hds; subst ds.
    + split.
      * cbn [map fst]. rewrite Hmap. reflexivity.
      * constructor; [|exact Hall]. split; [exact Hd|]. apply Rleb_le, Hreach.
    + auto.
Qed.

(** With distances that are exact reals the first loop never raises. *)
Lemma distances_loop_total (latitude longitude max_distance : Q)
    (items : list (str * station)) :
  exists ds, distances_loop latitude longitude max_distance items = Ok ds.
Proof.
  induction items as [|[code st] rest [ds Hds]].
  - exists []. reflexivity.
  - cbn [distances_loop].
    destruct (haversine_total (Q2R latitude) (Q2R longitude)
                (Q2R (fst (coordinate st))) (Q2R (snd (coordinate st))))
      as (d & Hd & _).
    rewrite Hd, Hds. unfold bind. eauto.
Qed.

Section AggregatorFacts.
Variable World : Type.
Variable http_get_text : str -> World -> result str * World.
Variable strptime : str -> result Z.
Variable datetime_now : World -> Z * World.
Variable STATIONS : list (str * station).
Variables (latitude longitude : Q) (max_seconds_ago : Z).

Local Abbreviation fetch := (metar http_get_text strptime).
Local Abbreviation body :=
  (try_body http_get_text strptime datetime_now latitude longitude max_seconds_ago).
Local Abbreviation loop :=
  (report_loop http_get_text strptime datetime_now latitude longitude max_seconds_ago).

Lemma try_body_fetch_failed (c : candidate) (w w1 : World) (e : exn) :
  fetch (code_of c) w = (Raise e, w1) -> body c w = (Raise e, w1).
Proof.
  destruct c as [[code st] d]. unfold code_of. cbn [fst]. intros H.
  unfold try_body. rewrite bearing_to_compass_ok, H. reflexivity.
Qed.

Lemma try_body_fetched (c : candidate) (w w1 w2 : World)
    (time now : Z) (report : str) :
  fetch (code_of c) w = (Ok (time, report), w1) ->
  datetime_now w1 = (now, w2) ->
  exists compass,
    body c w
    = if fresh (time - now) max_seconds_ago
      then (Ok (Some (label (station_of c) (distance_of c) compass (time - now),
                      report)), w2)
      else (Ok None, w2).
Proof.
  destruct c as [[code st] d]. unfold code_of, station_of, distance_of.
  cbn [fst snd]. intros Hfetch Hnow.
  unfold try_body. rewrite bearing_to_compass_ok, Hfetch, Hnow.
  eexists. reflexivity.
Qed.

Lemma report_loop_app (l1 l2 : list candidate) : forall res w,
  loop (l1 ++ l2) res w
  = loop l2 (fst (loop l1 res w)) (snd (loop l1 res w)).
Proof.
  induction l1 as [|c rest IH]; intros res w; [reflexivity|].
  cbn [app report_loop].
  destruct (body c w) as [[[[k report]|]|e] w']; apply IH.
Qed.

(** The entries of the result are written in the order of the
    candidates, by some of them. *)
Lemma report_loop_trace (cands : list candidate) : forall res w,
  exists entries : list (candidate * (str * str)),
    subseq (map fst entries) cands
    /\ fst (loop cands res w) = write_all res (map snd entries).
Proof.
  induction cands as [|c rest IH]; intros res w.
  - exists []. split; [constructor | reflexivity].
  - cbn [report_loop].
    destruct (body c w) as [[[[k report]|]|e] w'].
    + destruct (IH (dict_set res k report) w') as (entries & Hsub & Hres).
      exists ((c, (k, report)) :: entries). split.
      * cbn [map fst]. apply subseq_take, Hsub.
      * rewrite Hres. reflexivity.
    + destruct (IH res w') as (entries & Hsub & Hres).
      exists entries. split; [apply subseq_skip, Hsub | exact Hres].
    + destruct (IH res w') as (entries & Hsub & Hres).
      exists entries. split; [apply subseq_skip, Hsub | exact Hres].
Qed.

Lemma candidates_ok (max_distance : Q) :
  exists cands, candidates STATIONS latitude longitude max_distance = Ok cands.
Proof.
  destruct (distances_loop_total latitude longitude max_distance STATIONS)
    as (ds & Hds).
  unfold candidates. rewrite Hds. eauto.
Qed.

(** Once the list of candidates is built, the query returns the
    mapping the second loop leaves. *)
Lemma metar_nearby_returns (max_distance : Q) (cands : list candidate) (w : World) :
  candidates STATIONS latitude longitude max_distance = Ok cands ->
  metar_nearby http_get_text strptime datetime_now STATIONS
    latitude longitude max_distance max_seconds_ago w
  = (Ok (fst (loop cands [] w)), snd (loop cands [] w)).
Proof.
  intros H. unfold metar_nearby. rewrite H.
  destruct (loop cands [] w). reflexivity.
Qed.





End AggregatorFacts.






(** ** [haversine] in binary64 *)

Module Binary64Facts.
Import Floats.
Local Open Scope float_scope.

(** Claim C10, evaluated in binary64.  From 82 S 179 W to the point
    opposite on the globe, 82 N 1 E, the value [a] comes out as
    [1 + 2^-52]: [1 - a] is negative and [math.sqrt] raises.  The
    hypotheses give the values of the C library at the six calls the
    computation makes; they are the correctly rounded ones. *)
Theorem haversine_antipodal_domain_error
    (libm_sin libm_cos : float -> float) (libm_pow libm_atan2 : float -> float -> float) :
  libm_sin 0x1.6e6127ff9d971p+0 = 0x1.fb046a930947ap-1 ->
  libm_sin 0x1.921fb54442d18p+0 = 1 ->
  libm_cos (- 0x1.6e6127ff9d971p+0) = 0x1.1d06c968d9e1ap-3 ->
  libm_cos 0x1.6e6127ff9d971p+0 = 0x1.1d06c968d9e1ap-3 ->
  libm_pow 0x1.fb046a930947ap-1 2 = 0x1.f6153f1af3dc1p-1 ->
  libm_pow 1 2 = 1 ->
  Binary64.haversine_a libm_sin libm_cos libm_pow (-82) (-179) 82 1
  = 0x1.0000000000001p+0
  /\ Binary64.haversine libm_sin libm_cos libm_pow libm_atan2 (-82) (-179) 82 1
     = Raise ValueError.
Proof.
  intros Hs1 Hs2 Hc1 Hc2 Hp1 Hp2.
  assert (Ha : Binary64.haversine_a libm_sin libm_cos libm_pow (-82) (-179) 82 1
               = 0x1.0000000000001p+0).
  { unfold Binary64.haversine_a, Binary64.radians. cbv zeta.
    replace ((82 - -82) * Binary64.deg_to_rad / 2) with 0x1.6e6127ff9d971p+0
      by (vm_compute; reflexivity).
    replace ((1 - -179) * Binary64.deg_to_rad / 2) with 0x1.921fb54442d18p+0
      by (vm_compute; reflexivity).
    replace (-82 * Binary64.deg_to_rad) with (- 0x1.6e6127ff9d971p+0)
      by (vm_compute; reflexivity).
    replace (82 * Binary64.deg_to_rad) with 0x1.6e6127ff9d971p+0
      by (vm_compute; reflexivity).
    rewrite Hs1, Hs2, Hc1, Hc2, Hp1, Hp2. vm_compute. reflexivity. }
  split; [exact Ha|].
  unfold Binary64.haversine. cbv zeta. rewrite Ha. reflexivity.
Qed.

Lemma haversine_antipodal_domain_error_witness :
  Binary64.haversine Binary64.table_sin Binary64.table_cos Binary64.table_pow
    Binary64.table_atan2 (-82) (-179) 82 1
  = Raise ValueError.
Proof.
  apply (haversine_antipodal_domain_error Binary64.table_sin Binary64.table_cos
           Binary64.table_pow Binary64.table_atan2); vm_compute; reflexivity.
Defined.
End Binary64Facts.

(** * Further properties of the code *)

(** ** Geodesy over the real numbers *)

Lemma sin_sq_neg (x : R) : (sin (- x) ^ 2 = sin x ^ 2)%R.
Proof. rewrite sin_neg. ring. Qed.

Lemma haversine_a_sym (lat1 lon1 lat2 lon2 : R) :
  haversine_a lat1 lon1 lat2 lon2 = haversine_a lat2 lon2 lat1 lon1.
Proof.
  unfold haversine_a. cbv zeta.
  replace (radians (lat2 - lat1) / 2)%R with (- (radians (lat1 - lat2) / 2))%R
    by (unfold radians; field).
  replace (radians (lon2 - lon1) / 2)%R with (- (radians (lon1 - lon2) / 2))%R
    by (unfold radians; field).
  rewrite !sin_sq_neg. ring.
Qed.

(** Property X1.  The distance does not depend on the direction of travel. *)
Theorem haversine_symmetric (lat1 lon1 lat2 lon2 : R) :
  haversine lat1 lon1 lat2 lon2 = haversine lat2 lon2 lat1 lon1.
Proof. unfold haversine. rewrite (haversine_a_sym lat1 lon1 lat2 lon2). reflexivity. Qed.

Lemma haversine_of_a (lat1 lon1 lat2 lon2 a : R) :
  haversine_a lat1 lon1 lat2 lon2 = a -> (0 <= a <= 1)%R ->
  haversine lat1 lon1 lat2 lon2
  = Ok (earth_radius * (2 * atan2 (sqrt a) (sqrt (1 - a))))%R.
Proof.
  intros Ha [H0 H1]. unfold haversine. cbv zeta. rewrite Ha.
  unfold math_sqrt, bind.
  destruct (Rle_dec 0 a); [|lra].
  destruct (Rle_dec 0 (1 - a)); [|lra].
  reflexivity.
Qed.

(** Property X2.  A point is at distance 0 from itself. *)
Theorem haversine_same_point (lat lon : R) :
  haversine lat lon lat lon = Ok 0%R.
Proof.
  assert (Ha : haversine_a lat lon lat lon = 0%R).
  { unfold haversine_a, radians. cbv zeta.
    replace ((lat - lat) * PI / 180 / 2)%R with 0%R by field.
    replace ((lon - lon) * PI / 180 / 2)%R with 0%R by field.
    rewrite sin_0. ring. }
  rewrite (haversine_of_a Ha) by lra.
  f_equal. replace (1 - 0)%R with 1%R by ring. rewrite sqrt_0, sqrt_1.
  unfold atan2. destruct (Rlt_dec 0 1); [|lra].
  replace (0 / 1)%R with 0%R by field. rewrite atan_0. ring.
Qed.


Lemma float_mod_range (x m : R) : (0 < m)%R -> (0 <= float_mod x m < m)%R.
Proof.
  intros Hm. unfold float_mod.
  pose proof (Zfloor_bound (x / m)) as [Hlo Hhi].
  assert (Hx : (x = m * (x / m))%R) by (field; lra).
  split.
  - apply (Rmult_le_compat_l m) in Hlo; [|lra]. lra.
  - apply (Rmult_lt_compat_l m) in Hhi; [|lra]. lra.
Qed.

(** Property X4.  The bearing is normalised into [[0, 360)], wherever the two points
    are. *)
Theorem bearing_range (lat1 lon1 lat2 lon2 : R) :
  (0 <= bearing lat1 lon1 lat2 lon2 < 360)%R.
Proof. unfold bearing. cbv zeta. apply float_mod_range. lra. Qed.

Lemma float_mod_small (x m : R) : (0 <= x < m)%R -> float_mod (x + m) m = x.
Proof.
  intros [H0 Hm]. unfold float_mod.
  rewrite (Zfloor_eq 1 ((x + m) / m)).
  - simpl. ring.
  - assert (Hd : ((x + m) / m = x / m + 1)%R) by (field; lra).
    rewrite Hd.
    assert (0 <= x / m < 1)%R.
    { split.
      - apply Rmult_le_pos; [lra|]. left. apply Rinv_0_lt_compat. lra.
      - apply (Rmult_lt_reg_r m); [lra|]. unfold Rdiv.
        rewrite Rmult_assoc, Rinv_l by lra. lra. }
    simpl. lra.
Qed.

Lemma bearing_same_meridian (lat1 lat2 lon : R) :
  bearing lat1 lon lat2 lon
  = float_mod (degrees (atan2 0 (sin (radians (lat2 - lat1)))) + 360) 360.
Proof.
  unfold bearing. cbv zeta.
  replace (radians lon - radians lon)%R with 0%R by ring.
  rewrite sin_0, cos_0, radians_minus, sin_minus.
  f_equal. f_equal. f_equal. f_equal; ring.
Qed.



(** ** The compass rose outside [[0, 360)] *)

(** Property X6.  Whatever the bearing, negative or beyond a full turn, a label of the
    rose is returned: the index never leaves the table. *)
Theorem bearing_to_compass_total (b : R) :
  exists label, bearing_to_compass b = Ok label /\ In label compass_sectors.
Proof.
  rewrite bearing_to_compass_ok. eexists. split; [reflexivity|].
  apply nth_In.
  replace (List.length compass_sectors) with 16%nat by reflexivity.
  pose proof (sector_index_range b). lia.
Qed.

Lemma sector_index_nonneg_arg (b : R) :
  (- (45 / 4) <= b)%R ->
  sector_index b = (Zfloor ((b + 45 / 4) / (45 / 2)) mod 16)%Z.
Proof.
  intros Hb. unfold sector_index. rewrite sector_size_value.
  replace (45 / 2 / 2)%R with (45 / 4)%R by field.
  replace (Z.of_nat (List.length compass_sectors)) with 16%Z by reflexivity.
  rewrite int_of_float_nonneg; [reflexivity|]. lra.
Qed.





(** ** Coordinate conversion *)

(** Property X9.  Only the letters S and W change the result, and they change
    nothing but the sign: a token ending in S (or W) converts to the
    opposite of the same token ending in N (or any other character),
    and raises when that one raises. *)
Theorem dms_to_decimal_south_west (body : str) (c c' : ascii) :
  in_SW c = true -> in_SW c' = false ->
  dms_to_decimal (body ++ [c])
  = match dms_to_decimal (body ++ [c']) with
    | Ok q => Ok (- q)%Q
    | Raise e => Raise e
    end.
Proof.
  intros Hc Hc'. rewrite !dms_to_decimal_snoc.
  destruct (map_result py_int (split "-"%char body)) as [numbers|e]; [|reflexivity].
  destruct (List.length numbers <=? 3)%nat; [|reflexivity].
  cbv zeta. rewrite Hc, Hc'. reflexivity.
Qed.

Lemma dms_to_decimal_south_west_witness :
  dms_to_decimal (lit "073-47W")
  = match dms_to_decimal (lit "073-47E") with
    | Ok q => Ok (- q)%Q
    | Raise e => Raise e
    end.
Proof.
  apply (@dms_to_decimal_south_west (lit "073-47") "W"%char "E"%char);
    reflexivity.
Defined.

(** ** The registry parser *)

Lemma stations_loop_app (rows1 rows2 : list (list str)) : forall res,
  stations_loop res (rows1 ++ rows2)
  = match stations_loop res rows1 with
    | Ok res' => stations_loop res' rows2
    | Raise e => Raise e
    end.
Proof.
  induction rows1 as [|row rest IH]; intros res; [reflexivity|].
  cbn [app stations_loop].
  destruct (stations_row res row); [apply IH | reflexivity].
Qed.

Lemma stations_row_without_coordinates (res : dict station) (row : list str) :
  has_coordinates row = false -> stations_row res row = Ok res.
Proof.
  intros H. unfold stations_row. destruct row; [reflexivity|].
  rewrite H. reflexivity.
Qed.

(** Property X10.  A record whose latitude or longitude is empty, or that is too
    short to have them, leaves no trace: the parse gives what it gives
    without that line. *)
Theorem stations_ignores_rows_without_coordinates
    (rows1 rows2 : list (list str)) (row : list str) :
  truthy (reader_get FIELDNAMES row f_latitude) = false
  \/ truthy (reader_get FIELDNAMES row f_longitude) = false ->
  stations (rows1 ++ row :: rows2) = stations (rows1 ++ rows2).
Proof.
  intros H.
  assert (Hc : has_coordinates row = false).
  { unfold has_coordinates. cbv zeta. destruct H as [-> | ->];
      [reflexivity | apply andb_false_r]. }
  unfold stations. rewrite !stations_loop_app.
  destruct (stations_loop [] rows1) as [res|e]; [|reflexivity].
  cbn [stations_loop]. rewrite (stations_row_without_coordinates _ _ Hc).
  reflexivity.
Qed.

Lemma stations_ignores_rows_without_coordinates_witness :
  stations [csv_row "AAAA;1;2;Alpha;;Atlantis;6;;073-47W;;;12";
            csv_row "BBBB;1;2;Beta;;Atlantis;6;40-38N;073-47W;;;12"]
  = stations [csv_row "BBBB;1;2;Beta;;Atlantis;6;40-38N;073-47W;;;12"].
Proof.
  apply (@stations_ignores_rows_without_coordinates []
           [csv_row "BBBB;1;2;Beta;;Atlantis;6;40-38N;073-47W;;;12"]
           (csv_row "AAAA;1;2;Alpha;;Atlantis;6;;073-47W;;;12")).
  left. reflexivity.
Defined.

Lemma stations_loop_ok_iff (rows : list (list str)) : forall res,
  is_ok (stations_loop res rows) = true
  <-> Forall (fun row => has_coordinates row = true ->
                         is_ok (build_station row) = true) rows.
Proof.
  induction rows as [|row rest IH]; intros res.
  - split; [constructor | reflexivity].
  - cbn [stations_loop]. split.
    + intros H.
      destruct (stations_row res row) as [res'|e] eqn:Hrow; [|discriminate H].
      constructor; [|apply (IH res'), H].
      intros Hc. unfold stations_row in Hrow.
      destruct row as [|code fields]; [discriminate Hc|].
      rewrite Hc in Hrow.
      destruct (build_station (code :: fields)); [reflexivity | discriminate].
    + intros H. inversion H as [|? ? Hrow Hrest]; subst.
      unfold stations_row.
      destruct row as [|code fields]; [apply IH, Hrest|].
      destruct (has_coordinates (code :: fields)) eqn:Hc; [|apply IH, Hrest].
      specialize (Hrow eq_refl).
      destruct (build_station (code :: fields)); [apply IH, Hrest | discriminate].
Qed.

Lemma build_station_ok_iff (row : list str) (lat lon : str) :
  reader_get FIELDNAMES row f_latitude = Some lat ->
  reader_get FIELDNAMES row f_longitude = Some lon ->
  (is_ok (build_station row) = true
   <-> is_ok (dms_to_decimal lat) = true
       /\ is_ok (dms_to_decimal lon) = true
       /\ is_ok (kw_altitude (reader_get FIELDNAMES row f_altitude)) = true
       /\ truthy (reader_get FIELDNAMES row f_name) = true).
Proof.
  intros Hlat Hlon. unfold build_station. cbv zeta. rewrite Hlat, Hlon.
  unfold bind, make_station, kw_str, truthy.
  destruct (dms_to_decimal lat); [|simpl; intuition discriminate].
  destruct (dms_to_decimal lon); [|simpl; intuition discriminate].
  destruct (kw_altitude (reader_get FIELDNAMES row f_altitude));
    [|simpl; intuition discriminate].
  destruct (reader_get FIELDNAMES row f_name) as [[|c raw]|]; simpl;
    intuition discriminate.
Qed.

(** Property X11.  When the parse returns a mapping.  [stations] returns one exactly
    when every record that has both coordinates converts them, has an
    altitude that is empty or an integer literal, and has a non-empty
    name; one record that fails any of these makes the whole parse
    raise. *)
Theorem stations_ok_iff (rows : list (list str)) :
  is_ok (stations rows) = true
  <-> forall row lat lon,
        In row rows ->
        reader_get FIELDNAMES row f_latitude = Some lat -> lat <> [] ->
        reader_get FIELDNAMES row f_longitude = Some lon -> lon <> [] ->
        is_ok (dms_to_decimal lat) = true
        /\ is_ok (dms_to_decimal lon) = true
        /\ is_ok (kw_altitude (reader_get FIELDNAMES row f_altitude)) = true
        /\ truthy (reader_get FIELDNAMES row f_name) = true.
Proof.
  unfold stations. rewrite stations_loop_ok_iff, Forall_forall. split.
  - intros H row lat lon Hin Hlat Hlat_ne Hlon Hlon_ne.
    apply (build_station_ok_iff _ Hlat Hlon). apply (H row Hin).
    unfold has_coordinates. cbv zeta. rewrite Hlat, Hlon.
    destruct lat; [congruence|]. destruct lon; [congruence|]. reflexivity.
  - intros H row Hin Hc. unfold has_coordinates in Hc. cbv zeta in Hc.
    apply andb_true_iff in Hc. destruct Hc as [Hlat Hlon].
    destruct (reader_get FIELDNAMES row f_latitude) as [[|c1 lat]|] eqn:Elat;
      try discriminate Hlat.
    destruct (reader_get FIELDNAMES row f_longitude) as [[|c2 lon]|] eqn:Elon;
      try discriminate Hlon.
    apply (build_station_ok_iff _ Elat Elon).
    apply (H row (c1 :: lat) (c2 :: lon) Hin Elat); [discriminate | exact Elon | discriminate].
Qed.

Lemma dict_set_keys {V : Type} (d : dict V) (k : str) (v : V) :
  map fst (dict_set d k v)
  = if existsb (str_eqb k) (map fst d) then map fst d else map fst d ++ [k].
Proof.
  induction d as [|[k0 v0] rest IH]; [reflexivity|].
  cbn [dict_set map fst existsb].
  destruct (str_eqb k0 k) eqn:Hk0.
  - apply str_eqb_eq in Hk0. subst k0. rewrite str_eqb_refl. reflexivity.
  - assert (Hk : str_eqb k k0 = false).
    { destruct (str_eqb k k0) eqn:E; [|reflexivity].
      apply str_eqb_eq in E. subst k0. rewrite str_eqb_refl in Hk0. discriminate. }
    rewrite Hk. cbn [orb map fst]. rewrite IH.
    destruct (existsb (str_eqb k) (map fst rest)); reflexivity.
Qed.

Lemma dict_set_nodup {V : Type} (d : dict V) (k : str) (v : V) :
  NoDup (map fst d) -> NoDup (map fst (dict_set d k v)).
Proof.
  intros H. rewrite dict_set_keys.
  destruct (existsb (str_eqb k) (map fst d)) eqn:E; [exact H|].
  apply NoDup_app; [exact H | repeat constructor; intros [] | ].
  intros x Hx [Hk | []]. subst x.
  assert (existsb (str_eqb k) (map fst d) = true).
  { apply existsb_exists. exists k. split; [exact Hx | apply str_eqb_refl]. }
  congruence.
Qed.

Lemma stations_loop_nodup (rows : list (list str)) : forall res reg,
  NoDup (map fst res) -> stations_loop res rows = Ok reg -> NoDup (map fst reg).
Proof.
  induction rows as [|row rest IH]; intros res reg Hres H; cbn [stations_loop] in H.
  - inversion H; subst. exact Hres.
  - destruct (stations_row res row) as [res'|e] eqn:Hrow; [|discriminate].
    apply (IH res' reg); [|exact H].
    unfold stations_row in Hrow. destruct row as [|code fields].
    + inversion Hrow; subst. exact Hres.
    + destruct (has_coordinates (code :: fields)).
      * destruct (build_station (code :: fields)); [|discriminate].
        inversion Hrow; subst. apply dict_set_nodup, Hres.
      * inversion Hrow; subst. exact Hres.
Qed.

(** Property X12.  The registry holds each station code once, however often the feed
    repeats it. *)
Theorem stations_codes_unique (rows : list (list str)) (reg : dict station) :
  stations rows = Ok reg -> NoDup (map fst reg).
Proof. apply stations_loop_nodup. constructor. Qed.

Lemma stations_codes_unique_witness :
  exists reg,
    stations [csv_row "BBBB;1;2;Beta;;Atlantis;6;40-38N;073-47W;;;12";
              csv_row "BBBB;1;2;Beta again;;Atlantis;6;41-38N;073-47W;;;12"]
    = Ok reg
    /\ NoDup (map fst reg).
Proof.
  pose (rows := [csv_row "BBBB;1;2;Beta;;Atlantis;6;40-38N;073-47W;;;12";
                 csv_row "BBBB;1;2;Beta again;;Atlantis;6;41-38N;073-47W;;;12"]).
  destruct (stations rows) as [reg|e] eqn:Hparse;
    [|vm_compute in Hparse; discriminate].
  exists reg. split; [exact Hparse|].
  exact (@stations_codes_unique rows reg Hparse).
Defined.

Lemma stations_loop_keeps (rows : list (list str)) (code : str) : forall res reg,
  stations_loop res rows = Ok reg ->
  (forall r, In r rows -> has_coordinates r = true -> hd_error r <> Some code) ->
  dict_get reg code = dict_get res code.
Proof.
  induction rows as [|row rest IH]; intros res reg H Hother; cbn [stations_loop] in H.
  - inversion H. reflexivity.
  - destruct (stations_row res row) as [res'|e] eqn:Hrow; [|discriminate].
    rewrite (IH res' reg H) by (intros r Hr; apply Hother; right; exact Hr).
    unfold stations_row in Hrow. destruct row as [|code' fields].
    + inversion Hrow. reflexivity.
    + destruct (has_coordinates (code' :: fields)) eqn:Hc.
      * destruct (build_station (code' :: fields)); [|discriminate].
        inversion Hrow; subst. rewrite dict_get_set.
        destruct (str_eqb code' code) eqn:E; [|reflexivity].
        apply str_eqb_eq in E. subst code'.
        exfalso. apply (Hother (code :: fields)); [left; reflexivity | exact Hc | reflexivity].
      * inversion Hrow. reflexivity.
Qed.

(** Property X13.  Of several records with one code the last one wins: the registry
    holds the station built from the last line of the feed that carries
    the code and has both coordinates. *)
Theorem stations_last_write_wins
    (rows1 rows2 : list (list str)) (row : list str) (code : str)
    (reg : dict station) :
  stations (rows1 ++ row :: rows2) = Ok reg ->
  hd_error row = Some code ->
  has_coordinates row = true ->
  (forall r, In r rows2 -> has_coordinates r = true -> hd_error r <> Some code) ->
  exists st, build_station row = Ok st /\ dict_get reg code = Some st.
Proof.
  intros Hparse Hhd Hc Hother. unfold stations in Hparse.
  rewrite stations_loop_app in Hparse.
  destruct (stations_loop [] rows1) as [res1|e]; [|discriminate].
  cbn [stations_loop] in Hparse.
  destruct (stations_row res1 row) as [res2|e] eqn:Hrow; [|discriminate].
  unfold stations_row in Hrow. destruct row as [|code' fields]; [discriminate Hhd|].
  inversion Hhd; subst code'. rewrite Hc in Hrow.
  destruct (build_station (code :: fields)) as [st|e]; [|discriminate].
  inversion Hrow; subst res2. exists st. split; [reflexivity|].
  rewrite (@stations_loop_keeps _ _ _ _ Hparse Hother), dict_get_set, str_eqb_refl.
  reflexivity.
Qed.

Lemma stations_last_write_wins_witness :
  exists reg st,
    stations [csv_row "BBBB;1;2;Beta;;Atlantis;6;40-38N;073-47W;;;12";
              csv_row "BBBB;1;2;Beta again;;Atlantis;6;41-38N;073-47W;;;12"]
    = Ok reg
    /\ dict_get reg (lit "BBBB") = Some st
    /\ name st = lit "Beta again".
Proof.
  pose (first := csv_row "BBBB;1;2;Beta;;Atlantis;6;40-38N;073-47W;;;12").
  pose (second := csv_row "BBBB;1;2;Beta again;;Atlantis;6;41-38N;073-47W;;;12").
  destruct (stations [first; second]) as [reg|e] eqn:Hparse;
    [|vm_compute in Hparse; discriminate].
  destruct (@stations_last_write_wins [first] [] second (lit "BBBB") reg Hparse)
    as (st & Hbuild & Hget).
  - reflexivity.
  - reflexivity.
  - intros r [].
  - exists reg, st. split; [exact Hparse|]. split; [exact Hget|].
    vm_compute in Hbuild. inversion Hbuild. reflexivity.
Defined.

Lemma round_half_even_error (y : Q) :
  (- (1 # 2) <= inject_Z (round_half_even y) - y <= 1 # 2)%Q.
Proof.
  unfold round_half_even. cbv zeta.
  pose proof (Qfloor_le y) as Hlo. pose proof (Qlt_floor y) as Hhi.
  rewrite inject_Z_plus in Hhi. change (inject_Z 1) with 1%Q in Hhi.
  destruct (y - inject_Z (Qfloor y) ?= 1 # 2)%Q eqn:Hcmp.
  - apply Qeq_alt in Hcmp.
    destruct (Z.even (Qfloor y));
      [|rewrite inject_Z_plus; change (inject_Z 1) with 1%Q]; split; Lqa.lra.
  - apply Qlt_alt in Hcmp. split; Lqa.lra.
  - apply Qgt_alt in Hcmp. rewrite inject_Z_plus. change (inject_Z 1) with 1%Q.
    split; Lqa.lra.
Qed.

Lemma round_ndigits_error (x : Q) (n : nat) :
  (Qabs (round_ndigits x n - x) <= 1 / (2 * inject_Z (10 ^ Z.of_nat n)))%Q.
Proof.
  unfold round_ndigits. cbv zeta.
  set (s := inject_Z (10 ^ Z.of_nat n)).
  assert (Hs : (0 < s)%Q).
  { unfold s. change 0%Q with (inject_Z 0). rewrite <- Zlt_Qlt. lia. }
  destruct (round_half_even_error (x * s)) as [Hlo Hhi].
  set (r := inject_Z (round_half_even (x * s))) in *.
  assert (Heq : (r / s - x == (r - x * s) / s)%Q) by (field; Lqa.lra).
  rewrite Heq. apply Qabs_Qle_condition. split.
  - apply Qle_shift_div_l; [exact Hs|].
    assert (E : (- (1 / (2 * s)) * s == - (1 # 2))%Q) by (field; Lqa.lra).
    rewrite E. exact Hlo.
  - apply Qle_shift_div_r; [exact Hs|].
    assert (E : (1 / (2 * s) * s == 1 # 2)%Q) by (field; Lqa.lra).
    rewrite E. exact Hhi.
Qed.

Lemma build_station_coordinate (row : list str) (st : station) :
  build_station row = Ok st ->
  exists lat lon qlat qlon,
    reader_get FIELDNAMES row f_latitude = Some lat
    /\ reader_get FIELDNAMES row f_longitude = Some lon
    /\ dms_to_decimal lat = Ok qlat
    /\ dms_to_decimal lon = Ok qlon
    /\ coordinate st = (round_ndigits qlat 5, round_ndigits qlon 5).
Proof.
  unfold build_station. cbv zeta.
  destruct (reader_get FIELDNAMES row f_latitude) as [lat|]; [|discriminate].
  destruct (reader_get FIELDNAMES row f_longitude) as [lon|]; [|discriminate].
  unfold bind.
  destruct (dms_to_decimal lat) as [qlat|] eqn:Hqlat; [|discriminate].
  destruct (dms_to_decimal lon) as [qlon|] eqn:Hqlon; [|discriminate].
  destruct (kw_altitude (reader_get FIELDNAMES row f_altitude)) as [alt|]; [|discriminate].
  unfold make_station.
  destruct (kw_str (reader_get FIELDNAMES row f_name)); [|discriminate].
  intros H. inversion H; subst st. exists lat, lon, qlat, qlon.
  repeat split; assumption || reflexivity.
Qed.



(** ** The report reader *)

Lemma join_cons_head (sep : str) (c : ascii) (h : str) (t : list str) :
  join sep ((c :: h) :: t) = c :: join sep (h :: t).
Proof. destruct t; reflexivity. Qed.

(** Splitting at a separator and joining with it gives the string back. *)
Lemma join_split (sep : ascii) (s : str) : join [sep] (split sep s) = s.
Proof.
  induction s as [|c rest IH]; [reflexivity|].
  cbn [split]. destruct (Ascii.eqb_spec c sep) as [->|Hne].
  - destruct (split sep rest) as [|h t] eqn:E.
    + destruct rest; simpl in E; [discriminate|].
      destruct (Ascii.eqb a sep); [discriminate|].
      destruct (split sep rest); discriminate.
    + change (join [sep] ([] :: h :: t)) with (sep :: join [sep] (h :: t)).
      rewrite IH. reflexivity.
  - destruct (split sep rest) as [|h t] eqn:E.
    + destruct rest; simpl in E; [discriminate|].
      destruct (Ascii.eqb a sep); [discriminate|].
      destruct (split sep rest); discriminate.
    + rewrite join_cons_head, IH. reflexivity.
Qed.

Lemma upper_char_idempotent (c : ascii) : upper_char (upper_char c) = upper_char c.
Proof. destruct c as [[] [] [] [] [] [] [] []]; reflexivity. Qed.

Lemma upper_idempotent (s : str) : upper (upper s) = upper s.
Proof.
  unfold upper. rewrite map_map. apply map_ext. intros c. apply upper_char_idempotent.
Qed.

Section MetarFacts.
Variable World : Type.
Variable http_get_text : str -> World -> result str * World.
Variable strptime : str -> result Z.

Local Abbreviation fetch := (metar http_get_text strptime).

(** Property X15.  The station code is case-insensitive: two codes that differ in the
    case of their letters only are fetched from the same address and
    give the same outcome. *)
Theorem metar_case_insensitive (code code' : str) (w : World) :
  upper code = upper code' ->
  fetch code w = fetch code' w /\ fetch code w = fetch (upper code) w.
Proof.
  intros H. unfold metar. rewrite upper_idempotent, H. split; reflexivity.
Qed.

(** Property X16.  A page of at least two lines whose first line is a time stamp gives
    that time and the second line without its first two words; the
    rest of the second line is returned as it stands, and further lines
    are ignored. *)
Theorem metar_well_formed_page
    (code time_str tok1 tok2 body tail : str) (time : Z) (w w1 : World) :
  http_get_text (URL (upper code)) w
  = (Ok (time_str ++ "010"%char :: (tok1 ++ " "%char :: tok2 ++ " "%char :: body) ++ tail), w1) ->
  Forall (fun c => c <> "010"%char) time_str ->
  Forall (fun c => c <> " "%char /\ c <> "010"%char) tok1 ->
  Forall (fun c => c <> " "%char /\ c <> "010"%char) tok2 ->
  Forall (fun c => c <> "010"%char) body ->
  tail = [] \/ (exists more, tail = "010"%char :: more) ->
  strptime time_str = Ok time ->
  fetch code w = (Ok (time, body), w1).
Proof.
  intros Hget Htime Htok1 Htok2 Hbody Htail Hparse.
  assert (Hline : Forall (fun c => c <> "010"%char)
                    (tok1 ++ " "%char :: tok2 ++ " "%char :: body)).
  { apply Forall_app. split.
    - eapply Forall_impl; [|exact Htok1]. tauto.
    - constructor; [discriminate|]. apply Forall_app. split.
      + eapply Forall_impl; [|exact Htok2]. tauto.
      + constructor; [discriminate | exact Hbody]. }
  assert (Hlines : exists others,
            split "010"%char
              (time_str ++ "010"%char :: (tok1 ++ " "%char :: tok2 ++ " "%char :: body) ++ tail)
            = time_str :: (tok1 ++ " "%char :: tok2 ++ " "%char :: body) :: others).
  { rewrite (split_app_sep _ Htime). destruct Htail as [-> | [more ->]].
    - rewrite app_nil_r, (split_without_sep Hline). eauto.
    - rewrite (split_app_sep _ Hline). eauto. }
  destruct Hlines as [others Hlines].
  unfold metar. rewrite Hget, Hlines. cbn [firstn]. rewrite Hparse.
  rewrite split_app_sep by (eapply Forall_impl; [|exact Htok1]; tauto).
  rewrite split_app_sep by (eapply Forall_impl; [|exact Htok2]; tauto).
  cbn [skipn]. change (lit " ") with [" "%char]. rewrite join_split.
  reflexivity.
Qed.

(** Property X17.  A page without a line break cannot be unpacked into a time and a
    report: [metar] raises [ValueError], whatever the page says. *)
Theorem metar_single_line (code text : str) (w w1 : World) :
  http_get_text (URL (upper code)) w = (Ok text, w1) ->
  Forall (fun c => c <> "010"%char) text ->
  fetch code w = (Raise ValueError, w1).
Proof.
  intros Hget Htext. unfold metar.
  rewrite Hget, (split_without_sep Htext). reflexivity.
Qed.

End MetarFacts.

Lemma metar_case_insensitive_witness :
  metar sample_http sample_strptime (lit "kccc") 0%Z
  = metar sample_http sample_strptime (lit "KCCC") 0%Z.
Proof.
  apply (@metar_case_insensitive Z sample_http sample_strptime
           (lit "kccc") (lit "KCCC") 0%Z).
  reflexivity.
Defined.

Lemma metar_well_formed_page_witness :
  metar sample_http sample_strptime (lit "KCCC") 0%Z
  = (Ok (5400000000%Z, lit "27005KT 9999"), 0%Z).
Proof.
  apply (@metar_well_formed_page Z sample_http sample_strptime (lit "KCCC")
           (lit "1970/01/01 01:30") (lit "KCCC") (lit "010130Z")
           (lit "27005KT 9999") [] 5400000000%Z 0%Z 0%Z).
  - reflexivity.
  - repeat constructor; discriminate.
  - repeat constructor; discriminate.
  - repeat constructor; discriminate.
  - repeat constructor; discriminate.
  - left. reflexivity.
  - reflexivity.
Defined.

Lemma metar_single_line_witness :
  metar (fun (url : str) (w : Z) => (Ok (lit "no such station"), w))
        sample_strptime (lit "KZZZ") 0%Z
  = (Raise ValueError, 0%Z).
Proof.
  apply (@metar_single_line Z (fun (url : str) (w : Z) => (Ok (lit "no such station"), w))
           sample_strptime (lit "KZZZ") (lit "no such station") 0%Z 0%Z).
  - reflexivity.
  - repeat constructor; discriminate.
Defined.

(** ** The aggregator: reach, order of the table, freshness *)

Section SortUnique.
Variables (A K : Type) (key : A -> K) (leb : K -> K -> bool).
Hypothesis leb_antisym : forall x y, leb x y = true -> leb y x = true -> x = y.

(** Two sorted lists with the same elements, no two of them with the
    same key, are the same list. *)
Lemma sorted_perm_unique (l : list A) : forall l',
  StronglySorted (fun x y => leb (key x) (key y) = true) l ->
  StronglySorted (fun x y => leb (key x) (key y) = true) l' ->
  Permutation l l' ->
  NoDup (map key l) ->
  l = l'.
Proof.
  induction l as [|x t IH]; intros l' Hs Hs' Hperm Hnodup.
  - apply Permutation_nil in Hperm. congruence.
  - destruct l' as [|y t'].
    { apply Permutation_sym, Permutation_nil in Hperm. discriminate. }
    inversion Hs as [|? ? Hst Hxt]; subst.
    inversion Hs' as [|? ? Hst' Hyt']; subst.
    inversion Hnodup as [|? ? Hnotin Hnodup']; subst.
    assert (Hxy : x = y).
    { assert (Hx : In x (y :: t')) by (eapply Permutation_in; [exact Hperm | left; reflexivity]).
      assert (Hy : In y (x :: t))
        by (eapply Permutation_in; [apply Permutation_sym, Hperm | left; reflexivity]).
      destruct Hx as [Hx | Hx]; [congruence|].
      destruct Hy as [Hy | Hy]; [congruence|].
      rewrite Forall_forall in Hxt, Hyt'.
      pose proof (@leb_antisym _ _ (Hxt _ Hy) (Hyt' _ Hx)) as Hk.
      exfalso. apply Hnotin. rewrite Hk. apply in_map, Hy. }
    subst y. f_equal. apply IH; try assumption.
    apply Permutation_cons_inv with (a := x). exact Hperm.
Qed.
End SortUnique.

Lemma Rleb_antisym (x y : R) : Rleb x y = true -> Rleb y x = true -> x = y.
Proof. rewrite !Rleb_le. lra. Qed.

Lemma distances_loop_out_of_reach (latitude longitude max_distance : Q)
    (item : str * station) (rest : list (str * station)) :
  in_reach latitude longitude max_distance item = false ->
  distances_loop latitude longitude max_distance (item :: rest)
  = distances_loop latitude longitude max_distance rest.
Proof.
  destruct item as [code st]. unfold in_reach. cbn [snd distances_loop].
  destruct (haversine_total (Q2R latitude) (Q2R longitude)
              (Q2R (fst (coordinate st))) (Q2R (snd (coordinate st))))
    as (d & Hd & _).
  rewrite Hd. intros Hreach. unfold bind.
  destruct (distances_loop latitude longitude max_distance rest);
    [rewrite Hreach|]; reflexivity.
Qed.

Lemma distances_loop_skip (latitude longitude max_distance : Q)
    (item : str * station) (items1 items2 : list (str * station)) :
  in_reach latitude longitude max_distance item = false ->
  distances_loop latitude longitude max_distance (items1 ++ item :: items2)
  = distances_loop latitude longitude max_distance (items1 ++ items2).
Proof.
  intros Hreach. induction items1 as [|[code st] rest IH].
  - apply distances_loop_out_of_reach, Hreach.
  - cbn [app distances_loop]. rewrite IH. reflexivity.
Qed.

Lemma distances_loop_perm (latitude longitude max_distance : Q)
    (items items' : list (str * station)) :
  Permutation items items' ->
  forall ds ds',
    distances_loop latitude longitude max_distance items = Ok ds ->
    distances_loop latitude longitude max_distance items' = Ok ds' ->
    Permutation ds ds'.
Proof.
  induction 1 as [| [code st] l l' Hperm IH | [c1 s1] [c2 s2] l | l l' l'' H1 IH1 H2 IH2];
    intros ds ds' Hds Hds'.
  - inversion Hds. inversion Hds'. constructor.
  - cbn [distances_loop] in Hds, Hds'.
    destruct (haversine (Q2R latitude) (Q2R longitude)
                (Q2R (fst (coordinate st))) (Q2R (snd (coordinate st))))
      as [d|]; [|discriminate].
    unfold bind in Hds, Hds'.
    destruct (distances_loop latitude longitude max_distance l) as [r|]; [|discriminate].
    destruct (distances_loop latitude longitude max_distance l') as [r'|]; [|discriminate].
    specialize (IH r r' eq_refl eq_refl).
    destruct (Rleb d (Q2R max_distance)); inversion Hds; inversion Hds'; subst;
      [apply perm_skip|]; exact IH.
  - cbn [distances_loop] in Hds, Hds'.
    destruct (haversine (Q2R latitude) (Q2R longitude)
                (Q2R (fst (coordinate s1))) (Q2R (snd (coordinate s1))))
      as [d1|]; [|discriminate].
    destruct (haversine (Q2R latitude) (Q2R longitude)
                (Q2R (fst (coordinate s2))) (Q2R (snd (coordinate s2))))
      as [d2|]; [|discriminate].
    unfold bind in Hds, Hds'.
    destruct (distances_loop latitude longitude max_distance l) as [r|]; [|discriminate].
    destruct (Rleb d1 (Q2R max_distance)), (Rleb d2 (Q2R max_distance));
      inversion Hds; inversion Hds'; subst;
      [apply perm_swap | apply Permutation_refl ..].
  - destruct (distances_loop_total latitude longitude max_distance l') as [mid Hmid].
    eapply perm_trans; [apply (IH1 _ _ Hds Hmid) | apply (IH2 _ _ Hmid Hds')].
Qed.

Lemma filter_none {A : Type} (f : A -> bool) (l : list A) :
  (forall x, In x l -> f x = false) -> filter f l = [].
Proof.
  induction l as [|x rest IH]; intros H; [reflexivity|].
  cbn [filter]. rewrite (H x (or_introl eq_refl)).
  apply IH. intros y Hy. apply H. right. exact Hy.
Qed.

Section AggregatorReach.
Variable World : Type.
Variable http_get_text : str -> World -> result str * World.
Variable strptime : str -> result Z.
Variable datetime_now : World -> Z * World.
Variables (latitude longitude : Q).

Local Abbreviation nearby :=
  (metar_nearby http_get_text strptime datetime_now).
Local Abbreviation body :=
  (try_body http_get_text strptime datetime_now latitude longitude).
Local Abbreviation loop :=
  (report_loop http_get_text strptime datetime_now latitude longitude).




(** Property X21.  Raising the threshold never drops a report: a candidate that is
    written with [max_seconds_ago] is written, with the same label,
    with any larger threshold. *)
Theorem try_body_threshold_monotone
    (max_seconds_ago max_seconds_ago' : Z) (c : candidate) (w w' : World)
    (entry : str * str) :
  body max_seconds_ago c w = (Ok (Some entry), w') ->
  (max_seconds_ago <= max_seconds_ago')%Z ->
  body max_seconds_ago' c w = (Ok (Some entry), w').
Proof.
  destruct c as [[code st] d]. unfold try_body.
  rewrite bearing_to_compass_ok.
  destruct (metar http_get_text strptime code w) as [[[time report]|e] w1];
    [|discriminate].
  destruct (datetime_now w1) as [now w2].
  destruct (fresh (time - now) max_seconds_ago) eqn:Hf; [|discriminate].
  intros H Hle.
  assert (Hf' : fresh (time - now) max_seconds_ago' = true).
  { apply fresh_iff. apply fresh_iff in Hf. lia. }
  rewrite Hf'. exact H.
Qed.

(** Property X22.  A report stamped at or after the reading of the clock passes the
    freshness test with every threshold that is not negative, however
    far in the future its stamp is. *)
Theorem try_body_future_report
    (max_seconds_ago : Z) (c : candidate) (w w1 w2 : World)
    (time now : Z) (report : str) :
  metar http_get_text strptime (code_of c) w = (Ok (time, report), w1) ->
  datetime_now w1 = (now, w2) ->
  (now <= time)%Z -> (0 <= max_seconds_ago)%Z ->
  exists k, body max_seconds_ago c w = (Ok (Some (k, report)), w2).
Proof.
  intros Hfetch Hnow Hfuture Hmax.
  destruct (@try_body_fetched World http_get_text strptime datetime_now
              latitude longitude max_seconds_ago c w w1 w2 time now report
              Hfetch Hnow) as [compass Hbody].
  assert (Hf : fresh (time - now) max_seconds_ago = true)
    by (apply fresh_iff; lia).
  rewrite Hf in Hbody. eauto.
Qed.

Lemma dict_set_length {V : Type} (d : dict V) (k : str) (v : V) :
  (List.length (dict_set d k v) <= S (List.length d))%nat.
Proof.
  induction d as [|[k0 v0] rest IH]; simpl; [lia|].
  destruct (str_eqb k0 k); simpl; lia.
Qed.

(** Property X23.  The result has at most one entry for each candidate. *)
Theorem report_loop_size (max_seconds_ago : Z) (cands : list candidate) :
  forall res w,
    (List.length (fst (loop max_seconds_ago cands res w))
     <= List.length res + List.length cands)%nat.
Proof.
  induction cands as [|c rest IH]; intros res w; cbn [report_loop].
  - simpl. lia.
  - destruct (body max_seconds_ago c w) as [[[[k report]|]|e] w'].
    + specialize (IH (dict_set res k report) w').
      pose proof (dict_set_length res k report). simpl. lia.
    + specialize (IH res w'). simpl. lia.
    + specialize (IH res w'). simpl. lia.
Qed.

End AggregatorReach.


(** Two stations of the sample world seen from 0 N 0 E: one at the
    query point, one a quarter of the way round the equator. *)
Lemma sample_station_near :
  haversine (Q2R 0) (Q2R 0) (Q2R (fst (0, 0)%Q)) (Q2R (snd (0, 0)%Q)) = Ok 0%R.
Proof.
  cbn [fst snd]. replace (Q2R 0) with 0%R by (unfold Q2R; simpl; field).
  assert (Ha : haversine_a 0 0 0 0 = 0%R).
  { unfold haversine_a, radians. cbv zeta.
    replace ((0 - 0) * PI / 180 / 2)%R with 0%R by field.
    rewrite sin_0. ring. }
  rewrite (haversine_of_a Ha) by lra.
  f_equal. replace (1 - 0)%R with 1%R by ring. rewrite sqrt_0, sqrt_1.
  unfold atan2. destruct (Rlt_dec 0 1); [|lra].
  replace (0 / 1)%R with 0%R by field. rewrite atan_0. ring.
Qed.

Lemma sample_station_far :
  in_reach 0 0 100 (lit "KFAR", mk_station (lit "Far") (0, 90)%Q None None) = false.
Proof.
  unfold in_reach. cbn [snd coordinate fst].
  replace (Q2R 0) with 0%R by (unfold Q2R; simpl; field).
  replace (Q2R 90) with 90%R by (unfold Q2R; simpl; field).
  replace (Q2R 100) with 100%R by (unfold Q2R; simpl; field).
  assert (Hpos : (0 < sqrt 2)%R) by (apply sqrt_lt_R0; lra).
  assert (Ha : haversine_a 0 0 0 90 = (1 / 2)%R).
  { unfold haversine_a, radians. cbv zeta.
    replace ((0 - 0) * PI / 180 / 2)%R with 0%R by field.
    replace ((90 - 0) * PI / 180 / 2)%R with (PI / 4)%R by field.
    replace (0 * PI / 180)%R with 0%R by field.
    rewrite sin_0, cos_0, sin_PI4.
    replace (0 ^ 2 + 1 * 1 * (1 / sqrt 2) ^ 2)%R
      with (1 / (sqrt 2 * sqrt 2))%R by (field; lra).
    rewrite sqrt_sqrt by lra. reflexivity. }
  rewrite (haversine_of_a Ha) by lra.
  replace (1 - 1 / 2)%R with (1 / 2)%R by field.
  assert (Hs : (0 < sqrt (1 / 2))%R) by (apply sqrt_lt_R0; lra).
  unfold atan2. destruct (Rlt_dec 0 (sqrt (1 / 2))); [|lra].
  replace (sqrt (1 / 2) / sqrt (1 / 2))%R with 1%R by (field; lra).
  rewrite atan_1. unfold earth_radius, Rleb.
  destruct (Rle_dec (6371 * (2 * (PI / 4))) 100) as [Hle|]; [|reflexivity].
  pose proof PI2_1. lra.
Qed.

Lemma sample_candidates :
  candidates [(lit "KFAR", mk_station (lit "Far") (0, 90)%Q None None);
              (lit "KCCC", sample_station "Gamma")] 0 0 100
  = Ok [(lit "KCCC", sample_station "Gamma", 0%R)].
Proof.
  unfold candidates.
  rewrite (@distances_loop_out_of_reach 0 0 100 _ _ sample_station_far).
  cbn [distances_loop]. unfold sample_station at 1 2. cbn [coordinate].
  rewrite sample_station_near. unfold bind.
  assert (Hin : Rleb 0 (Q2R 100) = true).
  { apply Rleb_le. unfold Q2R. simpl. lra. }
  rewrite Hin. reflexivity.
Qed.



Lemma try_body_threshold_monotone_witness :
  exists entry,
    try_body sample_http sample_strptime sample_now 0 0 9000
      (lit "KCCC", sample_station "Gamma", 0%R) 10800000000%Z
    = (Ok (Some entry), 10800001000%Z).
Proof.
  assert (Hfetch : metar sample_http sample_strptime (lit "KCCC") 10800000000%Z
                   = (Ok (5400000000%Z, lit "27005KT 9999"), 10800000000%Z))
    by (vm_compute; reflexivity).
  assert (Hnow : sample_now 10800000000%Z = (10800000000%Z, 10800001000%Z))
    by reflexivity.
  destruct (@try_body_fetched Z sample_http sample_strptime sample_now 0%Q 0%Q 7200%Z
              (lit "KCCC", sample_station "Gamma", 0%R) _ _ _ _ _ _ Hfetch Hnow)
    as [compass Hbody].
  replace (fresh (5400000000 - 10800000000) 7200) with true in Hbody
    by (vm_compute; reflexivity).
  eexists.
  apply (@try_body_threshold_monotone Z sample_http sample_strptime sample_now
           0%Q 0%Q 7200%Z 9000%Z _ _ _ _ Hbody).
  lia.
Defined.

Lemma try_body_future_report_witness :
  exists k,
    try_body sample_http sample_strptime sample_now 0 0 0
      (lit "KAAA", sample_station "Alpha", 0%R) 10000000%Z
    = (Ok (Some (k, lit "18010KT CAVOK")), 10001000%Z).
Proof.
  apply (@try_body_future_report Z sample_http sample_strptime sample_now 0%Q 0%Q
           0%Z (lit "KAAA", sample_station "Alpha", 0%R) 10000000%Z 10000000%Z
           10001000%Z 10800000000%Z 10000000%Z (lit "18010KT CAVOK")).
  - vm_compute. reflexivity.
  - reflexivity.
  - lia.
  - lia.
Defined.

(** ** [metar_nearby_station] of [__main__.py] *)

Lemma station_distances_subscript (latitude longitude max_distance : Q)
    (items : list (str * station)) :
  station_distances latitude longitude max_distance items
  = match items with
    | [] => Ok []
    | _ :: _ => Raise TypeError
    end.
Proof. destruct items as [|[code st] rest]; reflexivity. Qed.

Section MainModuleFacts.
Variable World : Type.
Variable http_get_text : str -> World -> result str * World.
Variable strptime : str -> result Z.
Variable datetime_now : World -> Z * World.
Variable registry_rows : World -> result (list (list str)) * World.

Local Abbreviation nearby_station :=
  (metar_nearby_station http_get_text strptime datetime_now registry_rows).

(** Property X24.  [metar_nearby_station] cannot report a single station.  As soon as
    the registry holds one, the first loop subscripts a record of the
    dataclass, [TypeError] is raised, [except ValueError] does not
    catch it and it leaves the function; a mapping is returned only
    when the registry is empty, and then it is empty. *)
Theorem metar_nearby_station_subscript
    (latitude_dms longitude_dms : str + Q) (max_distance : Q)
    (max_seconds_ago : Z) (w : World) :
  (forall res w',
     nearby_station latitude_dms longitude_dms max_distance max_seconds_ago w
     = (Ok res, w') -> res = [])
  /\ (forall latitude longitude rows registry w1,
        to_decimal latitude_dms = Ok latitude ->
        to_decimal longitude_dms = Ok longitude ->
        registry_rows w = (Ok rows, w1) ->
        stations rows = Ok registry ->
        registry <> [] ->
        nearby_station latitude_dms longitude_dms max_distance max_seconds_ago w
        = (Raise TypeError, w1)).
Proof.
  split.
  - intros res w'. unfold metar_nearby_station.
    destruct (to_decimal latitude_dms) as [latitude|]; [|discriminate].
    destruct (to_decimal longitude_dms) as [longitude|]; [|discriminate].
    destruct (registry_rows w) as [page w1].
    destruct (bind page (fun rows => stations rows)) as [registry|]; [|discriminate].
    rewrite station_distances_subscript.
    destruct registry; [|discriminate].
    cbn [sort_by station_report_loop]. intros H. inversion H. reflexivity.
  - intros latitude longitude rows registry w1 Hlat Hlon Hrows Hparse Hne.
    unfold metar_nearby_station. rewrite Hlat, Hlon, Hrows. cbn [bind].
    rewrite Hparse, station_distances_subscript.
    destruct registry; [congruence | reflexivity].
Qed.

End MainModuleFacts.

Lemma metar_nearby_station_subscript_witness :
  metar_nearby_station sample_http sample_strptime sample_now
    (fun w : Z =>
       (Ok [csv_row "KJFK;74;486;New York;NY;United States;4;40-38N;073-47W;;;9"], w))
    (inl (lit "40-38N")) (inr (- 74)%Q) 100 7200 0%Z
  = (Raise TypeError, 0%Z).
Proof.
  pose (rows := [csv_row "KJFK;74;486;New York;NY;United States;4;40-38N;073-47W;;;9"]).
  destruct (stations rows) as [registry|e] eqn:Hparse;
    [|vm_compute in Hparse; discriminate].
  assert (Hne : registry <> []).
  { intros ->. vm_compute in Hparse. discriminate. }
  destruct (dms_to_decimal (lit "40-38N")) as [latitude|e] eqn:Hlat;
    [|vm_compute in Hlat; discriminate].
  exact (proj2 (@metar_nearby_station_subscript Z sample_http sample_strptime
                  sample_now (fun w : Z => (Ok rows, w))
                  (inl (lit "40-38N")) (inr (- 74)%Q) 100%Q 7200%Z 0%Z)
           latitude (- 74)%Q rows registry 0%Z Hlat eq_refl eq_refl Hparse Hne).
Defined.

(** ** [sun] *)

Lemma str_of_int_one_digit (n : Z) :
  (0 <= n < 10)%Z -> List.length (str_of_int n) = 1%nat.
Proof.
  intros H. rewrite <- (Z2Nat.id n) by lia.
  assert (Hk : (Z.to_nat n < 10)%nat) by lia.
  revert Hk. generalize (Z.to_nat n). intros k Hk.
  do 10 (destruct k as [|k]; [reflexivity|]). lia.
Qed.

(** Property X25.  The length of the day.  When the next rising is not after the next
    setting, [sun] returns, whatever the time zone and whether or not a
    previous rising exists; the third field is [hours:minutes] with
    0 <= minutes < 60 and [hours] hours [minutes] minutes the time
    from sunrise to sunset, cut to the minute.  The minutes are not
    padded: below ten they are one character. *)
Theorem sun_day_length
    (next_rising next_setting previous_rising : Q -> Q -> result Z)
    (utcoffset : Z) (latitude longitude : Q) (sunrise sunset : Z) :
  next_rising latitude longitude = Ok sunrise ->
  next_setting latitude longitude = Ok sunset ->
  (sunrise <= sunset)%Z ->
  exists hours minutes : Z,
    sun next_rising next_setting previous_rising utcoffset latitude longitude
    = Ok (isoformat_minutes (sunrise + utcoffset),
          isoformat_minutes (sunset + utcoffset),
          str_of_int hours ++ lit ":" ++ str_of_int minutes)
    /\ (0 <= hours)%Z /\ (0 <= minutes < 60)%Z
    /\ ((60 * hours + minutes) * 60000000 <= sunset - sunrise
        < (60 * hours + minutes + 1) * 60000000)%Z
    /\ ((minutes < 10)%Z -> List.length (str_of_int minutes) = 1%nat).
Proof.
  intros Hrise Hset Hle.
  set (seconds := ((sunset - sunrise) / 1000000)%Z).
  exists (seconds / 3600)%Z, ((seconds mod 3600) / 60)%Z.
  assert (Hq : whole_seconds (sunset + utcoffset - (sunrise + utcoffset)) = seconds).
  { unfold whole_seconds, seconds.
    replace (sunset + utcoffset - (sunrise + utcoffset))%Z with (sunset - sunrise)%Z by lia.
    apply Z.quot_div_nonneg; lia. }
  assert (Hs0 : (0 <= seconds)%Z) by (unfold seconds; apply Z.div_pos; lia).
  pose proof (Z.div_mod (sunset - sunrise) 1000000 ltac:(lia)) as Hdm1.
  pose proof (Z.mod_pos_bound (sunset - sunrise) 1000000 ltac:(lia)) as Hb1.
  fold seconds in Hdm1.
  pose proof (Z.div_mod seconds 3600 ltac:(lia)) as Hdm2.
  pose proof (Z.mod_pos_bound seconds 3600 ltac:(lia)) as Hb2.
  pose proof (Z.div_mod (seconds mod 3600) 60 ltac:(lia)) as Hdm3.
  pose proof (Z.mod_pos_bound (seconds mod 3600) 60 ltac:(lia)) as Hb3.
  assert (Hh : (0 <= seconds / 3600)%Z) by (apply Z.div_pos; lia).
  assert (Hm : (0 <= seconds mod 3600 / 60 < 60)%Z).
  { split; [apply Z.div_pos; lia | apply Z.div_lt_upper_bound; lia]. }
  split.
  - unfold sun. rewrite Hrise, Hset. cbn [bind].
    destruct (Z.ltb_spec sunset sunrise) as [Hlt|_]; [lia|].
    cbn [bind]. cbv zeta. rewrite Hq. reflexivity.
  - split; [exact Hh|]. split; [exact Hm|]. split; [lia|].
    intros Hsmall. apply str_of_int_one_digit. lia.
Qed.

Lemma sun_day_length_witness :
  exists rise set,
    sun (fun _ _ => Ok 21600000000%Z) (fun _ _ => Ok 65100000000%Z)
        (fun _ _ => Raise ValueError) 3600000000 48 16
    = Ok (rise, set, lit "12:5").
Proof.
  destruct (@sun_day_length (fun _ _ => Ok 21600000000%Z) (fun _ _ => Ok 65100000000%Z)
              (fun _ _ => Raise ValueError) 3600000000%Z 48%Q 16%Q
              21600000000%Z 65100000000%Z eq_refl eq_refl ltac:(lia))
    as (hours & minutes & Hsun & Hh & Hm & Hbound & _).
  assert (Hhm : (60 * hours + minutes = 725)%Z) by lia.
  assert (hours = 12 /\ minutes = 5)%Z as [-> ->] by lia.
  rewrite Hsun. eexists. eexists. reflexivity.
Defined.
